(** * CompareAI: the match page (client/src/pages/match-page.tsx)

    A shallow embedding of the [MatchPage] component: the values it reads
    from a Match snapshot, the view it renders from [(status, isCreator)],
    the result block of a completed match, and the two mutations
    ([respondMutation], [compareMutation]) with their effects on the
    network, the query cache and the toast surface. *)

From Stdlib Require Import ZArith Lia Bool List String Ascii.
From Stdlib Require Import SpecFloat DecimalString.
From stdpp Require Import gmap strings.

Local Open Scope Z_scope.

(** * JavaScript values as the page uses them *)

Module JS.

(** A JavaScript Number is an IEEE 754 binary64 value.  [spec_float] is the
    Standard Library's model of such values; the binary64 ones among them
    are those that [valid_binary 53 1024] accepts. *)
Definition number : Type := spec_float.

Definition prec : Z := 53.
Definition emax : Z := 1024.

Definition is_double (x : number) : Prop := valid_binary prec emax x = true.

Definition is_finite (x : number) : bool :=
  match x with
  | S754_zero _ | S754_finite _ _ _ => true
  | S754_infinity _ | S754_nan => false
  end.

Definition NaN : number := S754_nan.
Definition pos_zero : number := S754_zero false.
Definition neg_zero : number := S754_zero true.

(** The values a score field of a snapshot can hold.  A key that the JSON
    body omits reads as [undefined], a JSON [null] reads as [null]. *)
Inductive value : Type :=
  | Undefined
  | Null
  | Num (x : number).

(** [Number(v)] (ToNumber). *)
Definition Number (v : value) : number :=
  match v with
  | Undefined => NaN
  | Null => pos_zero
  | Num x => x
  end.

(** Truthiness (ToBoolean), as tested by [v ? a : b]. *)
Definition ToBoolean (v : value) : bool :=
  match v with
  | Undefined | Null => false
  | Num (S754_zero _) | Num S754_nan => false
  | Num (S754_infinity _) | Num (S754_finite _ _ _) => true
  end.

(** [a === b] (IsStrictlyEqual): different types are never equal, Numbers
    compare by Number::equal, which is the IEEE equality. *)
Definition strict_equals (a b : value) : bool :=
  match a, b with
  | Undefined, Undefined => true
  | Null, Null => true
  | Num x, Num y => SFeqb x y
  | _, _ => false
  end.

(** [x > y] on Numbers: the IEEE comparison [y < x], false on NaN. *)
Definition greater_than (x y : number) : bool := SFltb y x.

(** The exact value of a finite double, as an integer number of units of
    [2^-1074] (the smallest positive double): every finite double [x] is
    [scaled x * 2^-1074], so comparing [scaled] values compares the real
    numbers themselves. *)
Definition scale : Z := 1074.

Definition scaled (x : number) : Z :=
  match x with
  | S754_finite s m e => (if s then -1 else 1) * (Zpos m * 2 ^ (e + scale))
  | _ => 0
  end.

(** ** [Number.prototype.toFixed(1)] *)

Definition unit_value : Z := 2 ^ scale.

(** Decimal digits of a non-negative integer. *)
Definition decimal (n : Z) : string :=
  DecimalString.NilZero.string_of_uint (N.to_uint (Z.to_N n)).

Fixpoint zeros (k : nat) : string :=
  match k with
  | O => EmptyString
  | S k' => String "0" (zeros k')
  end.

(** Step 10 of toFixed for [f = 1]: the digits of [n], padded on the left
    with zeros up to two characters, with a point before the last one. *)
Definition fixed_digits (n : Z) : string :=
  let m := if n =? 0 then "0"%string else decimal n in
  let k := String.length m in
  let m := if (k <=? 1)%nat then zeros (2 - k) +:+ m else m in
  let k := String.length m in
  let a := substring 0 (k - 1) m in
  let b := substring (k - 1) 1 m in
  a +:+ "." +:+ b.

(** The integer [n] for which [n / 10 - x] is as close to zero as possible,
    the larger one when there are two; [r] is [x * 2^1074] for [x >= 0]. *)
Definition nearest_tenths (r : Z) : Z := (20 * r + unit_value) / (2 * unit_value).

Section ToFixed.

(** Number::toString on the finite values of magnitude [10^21] and more
    (exponent notation with the shortest digits that round-trip) is left
    to the engine. *)
Variable toStringLarge : number -> string.

Definition toFixed1 (x : number) : string :=
  match x with
  | S754_nan => "NaN"
  | S754_infinity s => if s then "-Infinity" else "Infinity"
  | S754_zero _ | S754_finite _ _ _ =>
      let s := if scaled x <? 0 then "-"%string else ""%string in
      let r := Z.abs (scaled x) in
      if 10 ^ 21 * unit_value <=? r
      then s +:+ toStringLarge (SFabs x)
      else s +:+ fixed_digits (nearest_tenths r)
  end.

End ToFixed.

End JS.

(** * The collaborators of the page: network, query cache, toasts *)

Local Open Scope string_scope.
Local Open Scope list_scope.

Record Error : Type := { name : string; message : string }.

(** [new Error(text)] *)
Definition new_Error (text : string) : Error := {| name := "Error"; message := text |}.
Definition TypeError (text : string) : Error := {| name := "TypeError"; message := text |}.
Definition SyntaxError (text : string) : Error := {| name := "SyntaxError"; message := text |}.

Record File : Type := { file_name : string }.

Inductive form_value : Type :=
  | FormFile (f : File)
  | FormText (s : string).

Definition FormData : Type := list (string * form_value).

Record Request : Type := {
  method : string;
  url : string;
  body : option FormData;
  credentials : option string
}.

(** The body of the compare response as the page reads it:
    [data.creatorScore] and [data.invitedScore]. *)
Record CompareData : Type := {
  data_creatorScore : JS.value;
  data_invitedScore : JS.value
}.

(** A response: [res.ok], what [res.text()] resolves to, and what
    [res.json()] resolves to ([None] when the body is not JSON and
    [res.json()] rejects). *)
Record Response : Type := {
  ok : bool;
  text : string;
  json : option CompareData
}.

(** How a [fetch] ends: the promise rejects (the request could not complete)
    or resolves to a response, successful or not. *)
Inductive fetch_result : Type :=
  | Rejected (e : Error)
  | Resolved (res : Response).

(** An async function body, up to its next [await] of the network. *)
Inductive async (A : Type) : Type :=
  | Return (a : A)
  | Throw (e : Error)
  | Await (req : Request) (k : fetch_result -> async A).

Arguments Return {A} a.
Arguments Throw {A} e.
Arguments Await {A} req k.

Record Toast : Type := {
  title : string;
  description : string;
  variant : option string
}.

(** The Match snapshot.
    Modelled from the spec: the [Match] type of [@shared/schema] is not part
    of the sources; section 3 of the specification gives its fields, with
    [creatorScore] and [invitedScore] optional numeric scores. *)
Record Match : Type := {
  match_id : Z;
  creatorId : Z;
  invitedId : Z;
  status : string;
  creatorScore : JS.value;
  invitedScore : JS.value
}.

Record User : Type := { user_id : Z }.

(** An entry of the query cache. *)
Record Query : Type := {
  data : option Match;
  isFetching : bool;
  isInvalidated : bool
}.

(** What the callbacks of the page can touch: the query cache of
    [queryClient], the toasts shown, the requests sent. *)
Record Env : Type := {
  cache : gmap string Query;
  toasts : list Toast;
  network : list Request
}.

(** Callbacks run in a state-and-exception monad over [Env]: a callback that
    throws keeps the effects it had before throwing. *)
Definition M (A : Type) : Type := Env -> Env * (Error + A).

#[export] Instance M_ret : MRet M := fun A (a : A) w => (w, inr a).

#[export] Instance M_bind : MBind M := fun A B (f : A -> M B) (c : M A) w =>
  match c w with
  | (w', inr a) => f a w'
  | (w', inl e) => (w', inl e)
  end.

Definition throw {A} (e : Error) : M A := fun w => (w, inl e).

(** [queryClient.invalidateQueries({ queryKey: [key] })]: the query under
    [key] is marked invalidated and, being mounted, refetched; its data
    stays until the refetch returns. *)
Definition invalidate (q : Query) : Query :=
  {| data := data q; isFetching := true; isInvalidated := true |}.

Definition invalidateQueries (key : string) : M unit :=
  fun w => ({| cache := alter invalidate key (cache w);
               toasts := toasts w;
               network := network w |}, inr tt).

(** [toast({...})] *)
Definition toast (t : Toast) : M unit :=
  fun w => ({| cache := cache w;
               toasts := toasts w ++ [t];
               network := network w |}, inr tt).

Definition send (req : Request) (w : Env) : Env :=
  {| cache := cache w; toasts := toasts w; network := network w ++ [req] |}.

(** * Mutations ([useMutation]) *)

Inductive mutation_status : Type := Idle | Pending | Success | Failed.

Section Mutation.

Context {V A : Type}.

(** The options object given to [useMutation]. *)
Record MutationOptions : Type := {
  mutationFn : V -> async A;
  onSuccess : A -> M unit;
  onError : option (Error -> M unit)
}.

(** What [useMutation] returns, with the suspended [mutationFn] of a
    request in flight. *)
Record Mutation : Type := {
  mutation_state : mutation_status;
  error : option Error;
  suspended : option (fetch_result -> async A)
}.

Definition idle : Mutation :=
  {| mutation_state := Idle; error := None; suspended := None |}.

Definition isPending (m : Mutation) : bool :=
  match mutation_state m with
  | Pending => true
  | _ => false
  end.

(** The mutation ends in error: [onError] runs when the options have one;
    [mutate] swallows the error (and one thrown by [onError]), which stays
    readable as [error]. *)
Definition fail (opts : MutationOptions) (e : Error) (w : Env) : Env * Mutation :=
  let w' := match onError opts with
            | Some handler => fst (handler e w)
            | None => w
            end in
  (w', {| mutation_state := Failed; error := Some e; suspended := None |}).

(** Runs a [mutationFn] up to its next [await], or to its end and then
    through the callbacks; an [onSuccess] that throws ends in error. *)
Definition advance (opts : MutationOptions) (p : async A) (w : Env) : Env * Mutation :=
  match p with
  | Return a =>
      match onSuccess opts a w with
      | (w', inr _) =>
          (w', {| mutation_state := Success; error := None; suspended := None |})
      | (w', inl e) => fail opts e w'
      end
  | Throw e => fail opts e w
  | Await req k =>
      (send req w,
       {| mutation_state := Pending; error := None; suspended := Some k |})
  end.

(** [mutation.mutate(v)] *)
Definition mutate (opts : MutationOptions) (v : V) (w : Env) : Env * Mutation :=
  advance opts (mutationFn opts v) w.

(** The awaited request of a pending mutation ends with [r]. *)
Definition settle (opts : MutationOptions) (m : Mutation) (r : fetch_result)
    (w : Env) : Env * Mutation :=
  match suspended m with
  | Some k => advance opts (k r) w
  | None => (w, m)
  end.

End Mutation.

Arguments MutationOptions : clear implicits.
Arguments Mutation : clear implicits.

(** * The page *)

Inductive action : Type :=
  | Respond (accept : bool)
  | Compare.

Definition action_eqb (a b : action) : bool :=
  match a, b with
  | Respond x, Respond y => Bool.eqb x y
  | Compare, Compare => true
  | _, _ => false
  end.

Record Button : Type := {
  onClick : action;
  disabled : bool;
  label : string
}.

(** The five blocks that the card of the page can hold. *)
Inductive view : Type :=
  | NewChallenge (photo : option string) (accept decline : Button)
  | WaitingForResponse
  | ReadyToCompare (compare : Button)
  | Processing
  | Results (className message yourScore theirScore : string).

Inductive rendered : Type :=
  | ProgressCard
  | Nothing
  | Card (content : list view).

(** [{cond && (...)}] *)
Definition when {A} (cond : bool) (x : A) : list A := if cond then [x] else [].

Definition is_present {A} (o : option A) : bool :=
  match o with
  | Some _ => true
  | None => false
  end.

(** [String(accept)] *)
Definition String_of_bool (b : bool) : string := if b then "true" else "false".

(** [params?.id] inside a template literal. *)
Definition param_id (params : option string) : string :=
  match params with
  | Some i => i
  | None => "undefined"
  end.

Definition queryKey (params : option string) : string :=
  "/api/matches/" +:+ param_id params.

(** Modelled from the spec: [apiRequest] of [@/lib/queryClient] is not part
    of the sources.  By sections 4.1, 6 and 7 of the specification it issues
    the request without a payload; a non-success response fails with the raw
    response body as the error message, a request that could not complete
    fails with its own error, and a success hands the response on. *)
Definition apiRequest {A} (method url : string) (k : Response -> async A) : async A :=
  Await {| method := method; url := url; body := None; credentials := None |}
    (fun r => match r with
              | Rejected e => Throw e
              | Resolved res =>
                  if ok res then k res else Throw (new_Error (text res))
              end).

Record Page : Type := {
  user : option User;
  params : option string;
  selectedFile : option File;
  world : Env;
  respondMutation : Mutation unit;
  compareMutation : Mutation CompareData
}.

(** The page observes one query, the Match snapshot under [queryKey]. *)
Definition useQuery (w : Env) (key : string) : option Match * bool :=
  match cache w !! key with
  | Some q => (data q, isFetching q && negb (is_present (data q)))
  | None => (None, true)
  end.

(** [user?.id === match.creatorId] *)
Definition isCreator (user : option User) (m : Match) : bool :=
  match user with
  | Some u => Z.eqb (user_id u) (creatorId m)
  | None => false
  end.

Definition isPendingStatus (m : Match) : bool := String.eqb (status m) "pending".
Definition isReady (m : Match) : bool := String.eqb (status m) "ready".
Definition isCompleted (m : Match) : bool := String.eqb (status m) "completed".

(** The outcomes of a completed match and their treatment: the class of the
    alert and its message. *)
Inductive outcome : Type := TIE | WIN | LOSS.

Definition treatment (o : outcome) : string * string :=
  match o with
  | TIE => ("bg-blue-500/10", "It's a tie!")
  | WIN => ("bg-green-500/10", "You won!")
  | LOSS => ("bg-red-500/10", "Your friend won!")
  end.

Definition result_className (isCreator : bool) (m : Match) : string :=
  if JS.strict_equals (creatorScore m) (invitedScore m) then "bg-blue-500/10"
  else if (if isCreator
           then JS.greater_than (JS.Number (creatorScore m)) (JS.Number (invitedScore m))
           else JS.greater_than (JS.Number (invitedScore m)) (JS.Number (creatorScore m)))
       then "bg-green-500/10"
       else "bg-red-500/10".

Definition result_message (isCreator : bool) (m : Match) : string :=
  if JS.strict_equals (creatorScore m) (invitedScore m) then "It's a tie!"
  else if (if isCreator
           then JS.greater_than (JS.Number (creatorScore m)) (JS.Number (invitedScore m))
           else JS.greater_than (JS.Number (invitedScore m)) (JS.Number (creatorScore m)))
       then "You won!"
       else "Your friend won!".

(** The result block shows outcome [o]. *)
Definition produces (isCreator : bool) (m : Match) (o : outcome) : Prop :=
  (result_className isCreator m, result_message isCreator m) = treatment o.

Section MatchPage.

Variable toStringLarge : JS.number -> string.

Definition respondOptions (params : option string) (selectedFile : option File)
    : MutationOptions bool unit :=
  {| mutationFn := fun accept =>
       if accept && negb (is_present selectedFile)
       then Throw (new_Error "No file selected")
       else
         let formData :=
           match selectedFile with
           | Some f => [("photo", FormFile f)]
           | None => []
           end ++ [("accept", FormText (String_of_bool accept))] in
         Await {| method := "POST";
                  url := queryKey params +:+ "/respond";
                  body := Some formData;
                  credentials := Some "include" |}
           (fun r => match r with
                     | Rejected e => Throw e
                     | Resolved res =>
                         if negb (ok res) then Throw (new_Error (text res))
                         else Return tt
                     end);
     onSuccess := fun _ =>
       invalidateQueries (queryKey params) ;;
       toast {| title := "Response sent";
                description := "Your response has been recorded";
                variant := None |};
     onError := None |}.

(** [v.toFixed(1)] on a field of the response: only a Number has the
    method, on [undefined] and [null] the property access throws. *)
Definition call_toFixed (v : JS.value) : M string :=
  match v with
  | JS.Num x => mret (JS.toFixed1 toStringLarge x)
  | JS.Undefined =>
      throw (TypeError "Cannot read properties of undefined (reading 'toFixed')")
  | JS.Null =>
      throw (TypeError "Cannot read properties of null (reading 'toFixed')")
  end.

Definition compareOptions (params : option string)
    : MutationOptions unit CompareData :=
  {| mutationFn := fun _ =>
       apiRequest "POST" (queryKey params +:+ "/compare")
         (fun res => match json res with
                     | Some d => Return d
                     | None => Throw (SyntaxError "Unexpected token in JSON")
                     end);
     onSuccess := fun d =>
       invalidateQueries (queryKey params) ;;
       mine ← call_toFixed (data_creatorScore d) ;
       theirs ← call_toFixed (data_invitedScore d) ;
       toast {| title := "Comparison complete";
                description := "Your score: " +:+ mine +:+ ", Their score: " +:+ theirs;
                variant := None |};
     onError := Some (fun e =>
       toast {| title := "Comparison failed";
                description := message e;
                variant := Some "destructive" |}) |}.

(** [score ? Number(score).toFixed(1) : '-'] *)
Definition score_text (score : JS.value) : string :=
  if JS.ToBoolean score then JS.toFixed1 toStringLarge (JS.Number score) else "-".

Definition yourScore (isCreator : bool) (m : Match) : string :=
  if isCreator then score_text (creatorScore m) else score_text (invitedScore m).

Definition theirScore (isCreator : bool) (m : Match) : string :=
  if isCreator then score_text (invitedScore m) else score_text (creatorScore m).

Definition acceptButton (selectedFile : option File) (respondPending : bool) : Button :=
  {| onClick := Respond true;
     disabled := negb (is_present selectedFile) || respondPending;
     label := "Accept Challenge" |}.

Definition declineButton (respondPending : bool) : Button :=
  {| onClick := Respond false;
     disabled := respondPending;
     label := "Decline" |}.

Definition compareButton (comparePending : bool) : Button :=
  {| onClick := Compare;
     disabled := comparePending;
     label := "Compare Photos" |}.

(** The children of [CardContent], in the order of the source. *)
Definition CardContent (isCreator : bool) (selectedFile : option File)
    (respondPending comparePending : bool) (m : Match) : list view :=
  when (isPendingStatus m && negb isCreator)
       (NewChallenge (file_name <$> selectedFile)
                     (acceptButton selectedFile respondPending)
                     (declineButton respondPending))
  ++ when (isPendingStatus m && isCreator) WaitingForResponse
  ++ when (isReady m && isCreator) (ReadyToCompare (compareButton comparePending))
  ++ when (isReady m && negb isCreator) Processing
  ++ when (isCompleted m)
          (Results (result_className isCreator m) (result_message isCreator m)
                   (yourScore isCreator m) (theirScore isCreator m)).

Definition MatchPage (p : Page) : rendered :=
  let '(snapshot, isLoading) := useQuery (world p) (queryKey (params p)) in
  if isLoading then ProgressCard
  else match snapshot with
       | None => Nothing
       | Some m =>
           Card (CardContent (isCreator (user p) m) (selectedFile p)
                             (isPending (respondMutation p))
                             (isPending (compareMutation p)) m)
       end.

(** ** Events *)

Definition content (p : Page) : list view :=
  match MatchPage p with
  | Card c => c
  | ProgressCard | Nothing => []
  end.

Definition buttons (v : view) : list Button :=
  match v with
  | NewChallenge _ accept decline => [accept; decline]
  | ReadyToCompare compare => [compare]
  | WaitingForResponse | Processing | Results _ _ _ _ => []
  end.

(** The button of action [a] is on the page. *)
Definition offered (p : Page) (a : action) : bool :=
  existsb (fun b => action_eqb (onClick b) a) (flat_map buttons (content p)).

(** The button of action [a] is on the page and not disabled. *)
Definition enabled (p : Page) (a : action) : bool :=
  existsb (fun b => action_eqb (onClick b) a && negb (disabled b))
          (flat_map buttons (content p)).

Definition file_input_shown (p : Page) : bool :=
  existsb (fun v => match v with NewChallenge _ _ _ => true | _ => false end)
          (content p).

Inductive event : Type :=
  | ChooseFile (f : option File)
  | Click (a : action)
  | RespondSettled (r : fetch_result)
  | CompareSettled (r : fetch_result).

Definition with_respond (p : Page) (r : Env * Mutation unit) : Page :=
  {| user := user p; params := params p; selectedFile := selectedFile p;
     world := fst r; respondMutation := snd r;
     compareMutation := compareMutation p |}.

Definition with_compare (p : Page) (r : Env * Mutation CompareData) : Page :=
  {| user := user p; params := params p; selectedFile := selectedFile p;
     world := fst r; respondMutation := respondMutation p;
     compareMutation := snd r |}.

Definition step (p : Page) (ev : event) : Page :=
  match ev with
  | ChooseFile f =>
      if file_input_shown p
      then {| user := user p; params := params p; selectedFile := f;
              world := world p; respondMutation := respondMutation p;
              compareMutation := compareMutation p |}
      else p
  | Click (Respond accept) =>
      if enabled p (Respond accept)
      then with_respond p
             (mutate (respondOptions (params p) (selectedFile p)) accept (world p))
      else p
  | Click Compare =>
      if enabled p Compare
      then with_compare p (mutate (compareOptions (params p)) tt (world p))
      else p
  | RespondSettled r =>
      with_respond p
        (settle (respondOptions (params p) (selectedFile p)) (respondMutation p) r
                (world p))
  | CompareSettled r =>
      with_compare p
        (settle (compareOptions (params p)) (compareMutation p) r (world p))
  end.

Definition run (p : Page) (evs : list event) : Page := fold_left step evs p.

End MatchPage.

(** * Vocabulary of the statements *)

(** A score is absent when the snapshot has no number for it. *)
Definition is_absent (v : JS.value) : bool :=
  match v with
  | JS.Undefined | JS.Null => true
  | JS.Num _ => false
  end.

Definition one_absent (m : Match) : Prop :=
  xorb (is_absent (creatorScore m)) (is_absent (invitedScore m)) = true.

(** The five views of the rendering table (section 4.1 of the
    specification) and the table itself. *)
Inductive kind : Type :=
  | UploadAndRespond
  | WaitingNotice
  | CompareOffer
  | ProcessingNotice
  | ResultView.

Definition kind_of (v : view) : kind :=
  match v with
  | NewChallenge _ _ _ => UploadAndRespond
  | WaitingForResponse => WaitingNotice
  | ReadyToCompare _ => CompareOffer
  | Processing => ProcessingNotice
  | Results _ _ _ _ => ResultView
  end.

Definition view_table (status : string) (isCreator : bool) : option kind :=
  if String.eqb status "pending"
  then Some (if isCreator then WaitingNotice else UploadAndRespond)
  else if String.eqb status "ready"
  then Some (if isCreator then CompareOffer else ProcessingNotice)
  else if String.eqb status "completed"
  then Some ResultView
  else None.

(** The page has the snapshot [m] and is not loading. *)
Definition loaded (p : Page) (m : Match) : Prop :=
  useQuery (world p) (queryKey (params p)) = (Some m, false).

(** A mutation from the call of [mutate] to the end of its request, which
    ends with [r] when the request was sent at all. *)
Definition complete {V A} (opts : MutationOptions V A) (v : V) (r : fetch_result)
    (w : Env) : Env * Mutation A :=
  let '(w1, m1) := mutate opts v w in settle opts m1 r w1.

(** The Respond request succeeds: it passes the local validation and the
    response has a success status. *)
Definition respond_succeeds (accept : bool) (selectedFile : option File)
    (r : fetch_result) : bool :=
  negb (accept && negb (is_present selectedFile))
  && match r with
     | Resolved res => ok res
     | Rejected _ => false
     end.

(** The Compare request succeeds: the response has a success status and a
    JSON body. *)
Definition compare_succeeds (r : fetch_result) : bool :=
  match r with
  | Resolved res => ok res && is_present (json res)
  | Rejected _ => false
  end.

(** The snapshots held by the query cache are the same in [w] and [w']. *)
Definition same_snapshots (w w' : Env) : Prop :=
  forall k : string, data <$> (cache w' !! k) = data <$> (cache w !! k).

(** The request that Respond sends. *)
Definition respond_request (params : option string) (selectedFile : option File)
    (accept : bool) : Request :=
  {| method := "POST";
     url := queryKey params +:+ "/respond";
     body := Some (match selectedFile with
                   | Some f => [("photo", FormFile f)]
                   | None => []
                   end ++ [("accept", FormText (String_of_bool accept))]);
     credentials := Some "include" |}.

(** Every event but the end of the Compare request. *)
Definition not_compare_settled (ev : event) : Prop :=
  match ev with
  | CompareSettled _ => False
  | _ => True
  end.

(** * Vocabulary of the further statements *)

(** Every event but the end of the Respond request. *)
Definition not_respond_settled (ev : event) : Prop :=
  match ev with
  | RespondSettled _ => False
  | _ => True
  end.

(** The request that Compare sends. *)
Definition compare_request (params : option string) : Request :=
  {| method := "POST"; url := queryKey params +:+ "/compare";
     body := None; credentials := None |}.

(** What is left of the two [mutationFn]s once their request is sent. *)
Definition respond_continuation : fetch_result -> async unit :=
  fun r => match r with
           | Rejected e => Throw e
           | Resolved res =>
               if negb (ok res) then Throw (new_Error (text res)) else Return tt
           end.

Definition compare_continuation : fetch_result -> async CompareData :=
  fun r => match r with
           | Rejected e => Throw e
           | Resolved res =>
               if ok res
               then match json res with
                    | Some d => Return d
                    | None => Throw (SyntaxError "Unexpected token in JSON")
                    end
               else Throw (new_Error (text res))
           end.

(** The requests in flight, if any, are those of the page's own mutations. *)
Definition in_protocol (p : Page) : Prop :=
  (suspended (respondMutation p) = None
   \/ suspended (respondMutation p) = Some respond_continuation)
  /\ (suspended (compareMutation p) = None
      \/ suspended (compareMutation p) = Some compare_continuation).

(** A POST to one of the two endpoints of the match of the page. *)
Definition own_endpoint (params : option string) (req : Request) : Prop :=
  method req = "POST"
  /\ (url req = queryKey params +:+ "/respond"
      \/ url req = queryKey params +:+ "/compare").

(** The three toasts of the page. *)
Definition response_sent : Toast :=
  {| title := "Response sent";
     description := "Your response has been recorded";
     variant := None |}.

Definition comparison_failed (e : Error) : Toast :=
  {| title := "Comparison failed"; description := message e;
     variant := Some "destructive" |}.

Definition comparison_complete (mine theirs : string) : Toast :=
  {| title := "Comparison complete";
     description := "Your score: " +:+ mine +:+ ", Their score: " +:+ theirs;
     variant := None |}.

(** * The authentication page (client/src/pages/auth-page.tsx) *)

Module Auth.

Record Credentials : Type := { username : string; password : string }.

(** [defaultValues] of both forms. *)
Definition defaultValues : Credentials := {| username := ""; password := "" |}.

Inductive which : Type := Login | Register.

(** The calls the page makes on what [useAuth] hands it:
    [loginMutation.mutate(data)] and [registerMutation.mutate(data)]. *)
Inductive call : Type :=
  | loginMutation_mutate (data : Credentials)
  | registerMutation_mutate (data : Credentials).

Record SubmitButton : Type := { submit_label : string; submit_disabled : bool }.

Record FormView : Type := {
  placeholders : list string;
  submit : SubmitButton
}.

Definition LoginForm (loginPending : bool) : FormView :=
  {| placeholders := ["Username"; "Password"];
     submit := {| submit_label := "Login"; submit_disabled := loginPending |} |}.

Definition RegisterForm (registerPending : bool) : FormView :=
  {| placeholders := ["Username"; "Password"];
     submit := {| submit_label := "Register"; submit_disabled := registerPending |} |}.

Inductive rendered : Type :=
  | AuthCard (defaultValue : string) (login register : FormView)
  | Null.

(** The state behind the page: what [useAuth] and [useLocation] return and
    the values of the two forms. *)
Record State : Type := {
  user : option User;
  location : string;
  loginPending : bool;
  registerPending : bool;
  loginValues : Credentials;
  registerValues : Credentials;
  calls : list call
}.

Definition AuthPage (s : State) : rendered :=
  match user s with
  | None => AuthCard "login" (LoginForm (loginPending s))
                     (RegisterForm (registerPending s))
  | Some _ => Null
  end.

(** The effect of the page: [if (user) setLocation("/")]. *)
Definition effect (s : State) : State :=
  match user s with
  | Some _ =>
      {| user := user s; location := "/"; loginPending := loginPending s;
         registerPending := registerPending s; loginValues := loginValues s;
         registerValues := registerValues s; calls := calls s |}
  | None => s
  end.

Definition values (s : State) (f : which) : Credentials :=
  match f with
  | Login => loginValues s
  | Register => registerValues s
  end.

Definition pending (s : State) (f : which) : bool :=
  match f with
  | Login => loginPending s
  | Register => registerPending s
  end.

Definition form_view (s : State) (f : which) : option FormView :=
  match AuthPage s, f with
  | AuthCard _ login _, Login => Some login
  | AuthCard _ _ register, Register => Some register
  | Null, _ => None
  end.

Definition mutate_of (f : which) (data : Credentials) : call :=
  match f with
  | Login => loginMutation_mutate data
  | Register => registerMutation_mutate data
  end.

Definition data_of (c : call) : Credentials :=
  match c with
  | loginMutation_mutate data | registerMutation_mutate data => data
  end.

Inductive event : Type :=
  | SetUser (u : option User)
  | SetPending (f : which) (pending : bool)
  | Input (f : which) (v : Credentials)
  | Submit (f : which).

Section Schema.

(** What [zodResolver(insertUserSchema)] makes of the values of a form: the
    parsed data, or nothing when the schema rejects them.  The schema itself
    is in [@shared/schema]. *)
Variable insertUserSchema : Credentials -> option Credentials.

(** [form.handleSubmit(onValid)] *)
Definition handleSubmit (onValid : Credentials -> list call) (v : Credentials)
    : list call :=
  match insertUserSchema v with
  | Some data => onValid data
  | None => []
  end.

Definition step (s : State) (ev : event) : State :=
  match ev with
  | SetUser u =>
      effect {| user := u; location := location s; loginPending := loginPending s;
                registerPending := registerPending s; loginValues := loginValues s;
                registerValues := registerValues s; calls := calls s |}
  | SetPending Login b =>
      {| user := user s; location := location s; loginPending := b;
         registerPending := registerPending s; loginValues := loginValues s;
         registerValues := registerValues s; calls := calls s |}
  | SetPending Register b =>
      {| user := user s; location := location s; loginPending := loginPending s;
         registerPending := b; loginValues := loginValues s;
         registerValues := registerValues s; calls := calls s |}
  | Input Login v =>
      match form_view s Login with
      | Some _ =>
          {| user := user s; location := location s; loginPending := loginPending s;
             registerPending := registerPending s; loginValues := v;
             registerValues := registerValues s; calls := calls s |}
      | None => s
      end
  | Input Register v =>
      match form_view s Register with
      | Some _ =>
          {| user := user s; location := location s; loginPending := loginPending s;
             registerPending := registerPending s; loginValues := loginValues s;
             registerValues := v; calls := calls s |}
      | None => s
      end
  | Submit f =>
      match form_view s f with
      | Some view =>
          if submit_disabled (submit view) then s
          else
            {| user := user s; location := location s;
               loginPending := loginPending s;
               registerPending := registerPending s;
               loginValues := loginValues s;
               registerValues := registerValues s;
               calls := calls s
                        ++ handleSubmit (fun data => [mutate_of f data]) (values s f) |}
      | None => s
      end
  end.

(** The page mounts (the effect runs once) and then takes the events. *)
Definition run (s : State) (evs : list event) : State :=
  fold_left step evs (effect s).

(** The data of the call is what the schema made of some values. *)
Definition parsed (c : call) : Prop :=
  exists v : Credentials, insertUserSchema v = Some (data_of c).

End Schema.

(** A signed-in visitor is at the home page. *)
Definition redirected (s : State) : Prop :=
  user s <> None -> location s = "/".

(** Every event but the arrival of a signed-in user. *)
Definition never_signs_in (ev : event) : Prop :=
  match ev with
  | SetUser (Some _) => False
  | _ => True
  end.

End Auth.

(** * Sample data *)

Module Sample.

(** Doubles: [8.0], [6.5], and the doubles nearest to [7.82] and [7.84]. *)
Definition d8_0 : JS.number := S754_finite false 4503599627370496 (-49).
Definition d6_5 : JS.number := S754_finite false 7318349394477056 (-50).
Definition d7_82 : JS.number := S754_finite false 8804537271509320 (-50).
Definition d7_84 : JS.number := S754_finite false 8827055269646172 (-50).

Definition creator : User := {| user_id := 10 |}.
Definition invited : User := {| user_id := 20 |}.

Definition a_match (status : string) (mine theirs : JS.value) : Match :=
  {| match_id := 1; creatorId := 10; invitedId := 20; status := status;
     creatorScore := mine; invitedScore := theirs |}.

Definition loaded (m : Match) : Env :=
  {| cache := {[ queryKey (Some "1") :=
                 {| data := Some m; isFetching := false; isInvalidated := false |} ]};
     toasts := [];
     network := [] |}.

Definition page (viewer : User) (m : Match) : Page :=
  {| user := Some viewer; params := Some "1"; selectedFile := None;
     world := loaded m; respondMutation := idle; compareMutation := idle |}.

Definition photo : File := {| file_name := "me.png" |}.

Definition rejection : fetch_result :=
  Resolved {| ok := false; text := "Match is not pending"; json := None |}.

Definition acknowledged : fetch_result :=
  Resolved {| ok := true; text := ""; json := None |}.

Definition scores : fetch_result :=
  Resolved {| ok := true; text := "creatorScore 8, invitedScore 6.5";
              json := Some {| data_creatorScore := JS.Num d8_0;
                              data_invitedScore := JS.Num d6_5 |} |}.

Definition offline : fetch_result := Rejected (TypeError "Failed to fetch").

(** An engine that prints nothing for the large values. *)
Definition engine : JS.number -> string := fun _ => "".

End Sample.

Module Scenario.

(** A page whose query has not answered yet. *)
Definition loading : Page :=
  {| user := Some Sample.invited; params := Some "1"; selectedFile := None;
     world := {| cache := ∅; toasts := []; network := [] |};
     respondMutation := idle; compareMutation := idle |}.

Definition pending_match : Match := Sample.a_match "pending" JS.Null JS.Null.
Definition ready_match : Match := Sample.a_match "ready" JS.Null JS.Null.
Definition declined_match : Match := Sample.a_match "declined" JS.Null JS.Null.

(** The invited viewer of a pending match, with a photo selected. *)
Definition with_photo : Page :=
  {| user := Some Sample.invited; params := Some "1";
     selectedFile := Some Sample.photo;
     world := Sample.loaded pending_match;
     respondMutation := idle; compareMutation := idle |}.

Definition stranger : User := {| user_id := 30 |}.

(** A compare response without the invited score. *)
Definition half_scores : Response :=
  {| ok := true; text := "creatorScore 8";
     json := Some {| data_creatorScore := JS.Num Sample.d8_0;
                     data_invitedScore := JS.Undefined |} |}.

(** A schema that wants a username and a password. *)
Definition schema (v : Auth.Credentials) : option Auth.Credentials :=
  if (String.eqb (Auth.username v) "" || String.eqb (Auth.password v) "")%bool
  then None else Some v.

Definition signed_out : Auth.State :=
  {| Auth.user := None; Auth.location := "/auth";
     Auth.loginPending := false; Auth.registerPending := false;
     Auth.loginValues := Auth.defaultValues;
     Auth.registerValues := Auth.defaultValues;
     Auth.calls := [] |}.

Definition alice : Auth.Credentials :=
  {| Auth.username := "alice"; Auth.password := "secret" |}.

End Scenario.

(** * Facts about doubles *)

Module JSFacts.

Import JS.

Local Open Scope Z_scope.

Lemma digits2_pos_bounds (m : positive) :
  2 ^ (Zpos (digits2_pos m) - 1) <= Zpos m < 2 ^ Zpos (digits2_pos m).
Proof.
  induction m as [p IH | p IH |]; cbn [digits2_pos].
  - rewrite Pos2Z.inj_succ.
    replace (Z.succ (Z.pos (digits2_pos p)) - 1) with (Z.succ (Z.pos (digits2_pos p) - 1)) by lia.
    rewrite !Z.pow_succ_r by lia. lia.
  - rewrite Pos2Z.inj_succ.
    replace (Z.succ (Z.pos (digits2_pos p)) - 1) with (Z.succ (Z.pos (digits2_pos p) - 1)) by lia.
    rewrite !Z.pow_succ_r by lia. lia.
  - cbn. lia.
Qed.

Lemma bounded_inv (m : positive) (e : Z) :
  bounded prec emax m e = true ->
  - scale <= e <= 971 /\ Zpos m < 2 ^ 53 /\ (e = - scale \/ 2 ^ 52 <= Zpos m).
Proof.
  unfold bounded, canonical_mantissa, fexp, emin, prec, emax, scale.
  intros H. apply andb_true_iff in H. destruct H as [Hc He].
  apply Z.eqb_eq in Hc. apply Z.leb_le in He.
  pose proof (digits2_pos_bounds m) as [Hlo Hhi].
  set (d := Zpos (digits2_pos m)) in *.
  assert (Hd : d <= 53 /\ (e = -1074 \/ d = 53)) by lia.
  destruct Hd as [Hd1 Hd2].
  split; [lia|]. split.
  - eapply Z.lt_le_trans; [exact Hhi|]. apply Z.pow_le_mono_r; lia.
  - destruct Hd2 as [->| ->]; [left; reflexivity | right]. exact Hlo.
Qed.

(** Among the valid doubles a larger exponent means a larger magnitude. *)
Lemma scaled_lt_exp (m1 m2 : positive) (e1 e2 : Z) :
  bounded prec emax m1 e1 = true -> bounded prec emax m2 e2 = true ->
  e1 < e2 -> Zpos m1 * 2 ^ (e1 + scale) < Zpos m2 * 2 ^ (e2 + scale).
Proof.
  intros H1 H2 Hlt.
  apply bounded_inv in H1. apply bounded_inv in H2.
  destruct H1 as (He1 & Hm1 & _). destruct H2 as (He2 & _ & Hm2).
  unfold scale in *.
  assert (Hn : 2 ^ 52 <= Zpos m2) by (destruct Hm2; [lia | assumption]).
  replace (e2 + 1074) with ((e1 + 1074) + (e2 - e1)) by lia.
  rewrite (Z.pow_add_r 2 (e1 + 1074) (e2 - e1)) by lia.
  assert (Hp : 0 < 2 ^ (e1 + 1074)) by (apply Z.pow_pos_nonneg; lia).
  assert (Hq : 2 ^ 1 <= 2 ^ (e2 - e1)) by (apply Z.pow_le_mono_r; lia).
  change (2 ^ 1) with 2 in Hq. change (2 ^ 53) with (2 * 2 ^ 52) in Hm1.
  generalize dependent (2 ^ (e2 - e1)). generalize dependent (2 ^ (e1 + 1074)).
  clear Hm2 He1 He2 Hlt.
  assert (Hc : 0 < 2 ^ 52) by reflexivity.
  generalize dependent (2 ^ 52). generalize (Zpos m1) (Zpos m2). clear.
  intros a b c Ha Hb Hc p Hp q Hq.
  assert (0 <= b * p) by nia.
  apply Z.lt_le_trans with (2 * c * p); [nia|].
  apply Z.le_trans with (2 * b * p); nia.
Qed.

Lemma compare_cont_Eq (p q : positive) : Pos.compare_cont Eq p q = (Zpos p ?= Zpos q).
Proof. reflexivity. Qed.

(** The IEEE comparison of two finite doubles is the comparison of their
    exact values. *)
Lemma SFcompare_scaled (a b : number) :
  is_double a -> is_double b -> is_finite a = true -> is_finite b = true ->
  SFcompare a b = Some (scaled a ?= scaled b).
Proof.
  unfold is_double.
  destruct a as [sa| | |sa ma ea], b as [sb| | |sb mb eb]; cbn [is_finite valid_binary]; try discriminate; intros Ha Hb _ _.
  - reflexivity.
  - cbn [SFcompare scaled]. f_equal.
    assert (0 < Zpos mb * 2 ^ (eb + scale)) by (apply bounded_inv in Hb; apply Z.mul_pos_pos; [lia| apply Z.pow_pos_nonneg; unfold scale in *; lia]).
    destruct sb; symmetry; [apply Z.compare_gt_iff | apply Z.compare_lt_iff]; lia.
  - cbn [SFcompare scaled]. f_equal.
    assert (0 < Zpos ma * 2 ^ (ea + scale)) by (apply bounded_inv in Ha; apply Z.mul_pos_pos; [lia| apply Z.pow_pos_nonneg; unfold scale in *; lia]).
    destruct sa; symmetry; [apply Z.compare_lt_iff | apply Z.compare_gt_iff]; lia.
  - cbn [SFcompare scaled]. f_equal.
    assert (Hpa : 0 < Zpos ma * 2 ^ (ea + scale)) by (apply bounded_inv in Ha; apply Z.mul_pos_pos; [lia| apply Z.pow_pos_nonneg; unfold scale in *; lia]).
    assert (Hpb : 0 < Zpos mb * 2 ^ (eb + scale)) by (apply bounded_inv in Hb; apply Z.mul_pos_pos; [lia| apply Z.pow_pos_nonneg; unfold scale in *; lia]).
    assert (Hpw : 0 < 2 ^ (ea + scale)) by (apply bounded_inv in Ha; apply Z.pow_pos_nonneg; unfold scale in *; lia).
    destruct (Z.compare_spec ea eb) as [Heq | Hlt | Hgt].
    + subst eb. rewrite compare_cont_Eq.
      destruct (Z.compare_spec (Zpos ma) (Zpos mb)) as [E | L | G];
        destruct sa, sb; cbn [CompOpp]; symmetry;
        first [ apply Z.compare_eq_iff | apply Z.compare_lt_iff | apply Z.compare_gt_iff ]; try nia.
    + pose proof (scaled_lt_exp ma mb ea eb Ha Hb Hlt).
      destruct sa, sb; symmetry;
        first [ apply Z.compare_lt_iff; lia | apply Z.compare_gt_iff; lia ].
    + pose proof (scaled_lt_exp mb ma eb ea Hb Ha ltac:(lia)).
      destruct sa, sb; symmetry;
        first [ apply Z.compare_lt_iff; lia | apply Z.compare_gt_iff; lia ].
Qed.

Lemma unit_value_pos : 0 < unit_value.
Proof. unfold unit_value, scale. apply Z.pow_pos_nonneg; lia. Qed.

Lemma nearest_tenths_spec (r : Z) :
  2 * unit_value * nearest_tenths r - unit_value <= 20 * r
    < 2 * unit_value * nearest_tenths r + unit_value.
Proof.
  unfold nearest_tenths. pose proof unit_value_pos as Hu.
  generalize dependent unit_value. intros u Hu.
  pose proof (Z.mul_div_le (20 * r + u) (2 * u) ltac:(lia)).
  pose proof (Z.mul_succ_div_gt (20 * r + u) (2 * u) ltac:(lia)).
  lia.
Qed.

(** The integer selected is the only one within half a unit of [10 x],
    the upper one on a tie. *)
Lemma nearest_tenths_unique (r n : Z) :
  2 * unit_value * n - unit_value <= 20 * r < 2 * unit_value * n + unit_value ->
  n = nearest_tenths r.
Proof.
  intros H. pose proof (nearest_tenths_spec r) as H'.
  pose proof unit_value_pos as Hu.
  generalize dependent (nearest_tenths r). generalize dependent unit_value.
  intros u Hu H k Hk. nia.
Qed.

Lemma length_append (s t : string) :
  String.length (s +:+ t) = (String.length s + String.length t)%nat.
Proof.
  induction s as [|c s IH]; [reflexivity|].
  change (String c s +:+ t) with (String c (s +:+ t)).
  cbn [String.length]. now rewrite IH.
Qed.

Lemma length_zeros (k : nat) : String.length (zeros k) = k.
Proof. induction k as [|k IH]; cbn; [reflexivity | now rewrite IH]. Qed.

Lemma length_substring_1 (s : string) (i : nat) :
  (i < String.length s)%nat -> String.length (substring i 1 s) = 1%nat.
Proof.
  revert i. induction s as [|c s IH]; intros i Hi; cbn in Hi; [lia|].
  destruct i as [|i]; cbn.
  - destruct s; reflexivity.
  - apply IH. lia.
Qed.

Lemma fixed_digits_shape (n : Z) :
  exists a b : string,
    fixed_digits n = a +:+ "." +:+ b /\ String.length b = 1%nat.
Proof.
  unfold fixed_digits.
  set (m0 := if n =? 0 then "0"%string else decimal n).
  set (m := if (String.length m0 <=? 1)%nat then zeros (2 - String.length m0) +:+ m0 else m0).
  assert (Hm : (2 <= String.length m)%nat).
  { subst m. destruct (Nat.leb_spec (String.length m0) 1) as [H | H].
    - rewrite length_append, length_zeros. lia.
    - lia. }
  eexists _, _. split; [reflexivity|].
  apply length_substring_1. lia.
Qed.

End JSFacts.

(** * The result block of a completed match *)

Section Outcome.

Local Open Scope Z_scope.

Lemma treatment_inj (o1 o2 : outcome) : treatment o1 = treatment o2 -> o1 = o2.
Proof. destruct o1, o2; cbn; intros H; first [reflexivity | discriminate H]. Qed.

Lemma produces_functional (c : bool) (m : Match) (o1 o2 : outcome) :
  produces c m o1 -> produces c m o2 -> o1 = o2.
Proof. unfold produces. intros H1 H2. apply treatment_inj. congruence. Qed.

(** On two finite doubles the result block follows the order of the exact
    values: the first test is their equality, the second the strict order
    between the viewer's score and the other one. *)
Lemma produces_by_value (c : bool) (m : Match) (a b : JS.number) :
  creatorScore m = JS.Num a -> invitedScore m = JS.Num b ->
  JS.is_double a -> JS.is_double b ->
  JS.is_finite a = true -> JS.is_finite b = true ->
  produces c m
    match JS.scaled (if c then a else b) ?= JS.scaled (if c then b else a) with
    | Eq => TIE
    | Gt => WIN
    | Lt => LOSS
    end.
Proof.
  intros Hc Hi Da Db Fa Fb.
  unfold produces, result_className, result_message.
  rewrite Hc, Hi. cbn [JS.strict_equals JS.Number].
  unfold JS.greater_than, SFeqb, SFltb.
  rewrite (JSFacts.SFcompare_scaled a b), (JSFacts.SFcompare_scaled b a) by assumption.
  destruct c; cbv iota;
    rewrite (Z.compare_antisym (JS.scaled a) (JS.scaled b));
    destruct (JS.scaled a ?= JS.scaled b); reflexivity.
Qed.

(** C1: on a completed match whose two scores are present (finite doubles),
    the result block shows exactly one of TIE, WIN and LOSS; it shows TIE if
    and only if the two raw scores have the same value, WIN if and only if
    the viewer's own score is strictly greater than the other one, and LOSS
    if and only if it is strictly smaller. *)
Theorem outcome_classification (c : bool) (m : Match) (a b : JS.number) :
  creatorScore m = JS.Num a -> invitedScore m = JS.Num b ->
  JS.is_double a -> JS.is_double b ->
  JS.is_finite a = true -> JS.is_finite b = true ->
  let mine := if c then a else b in
  let theirs := if c then b else a in
  (exists! o, produces c m o) /\
  (produces c m TIE <-> JS.scaled a = JS.scaled b) /\
  (produces c m WIN <-> JS.scaled mine > JS.scaled theirs) /\
  (produces c m LOSS <-> JS.scaled mine < JS.scaled theirs).
Proof.
  intros Hc Hi Da Db Fa Fb mine theirs.
  pose proof (produces_by_value c m a b Hc Hi Da Db Fa Fb) as H.
  fold mine theirs in H.
  assert (Heq : JS.scaled a = JS.scaled b <-> JS.scaled mine = JS.scaled theirs)
    by (subst mine theirs; destruct c; split; congruence).
  split; [|split; [|split]].
  - eexists. split; [exact H|]. intros o Ho. exact (produces_functional c m _ _ H Ho).
  - rewrite Heq. destruct (Z.compare_spec (JS.scaled mine) (JS.scaled theirs)) as [E|L|G];
      (split; [intros Ho; pose proof (produces_functional c m _ _ H Ho); first [assumption | discriminate] | intros; first [assumption | lia]]).
  - destruct (Z.compare_spec (JS.scaled mine) (JS.scaled theirs)) as [E|L|G];
      (split; [intros Ho; pose proof (produces_functional c m _ _ H Ho); first [lia | discriminate] | intros; first [assumption | lia]]).
  - destruct (Z.compare_spec (JS.scaled mine) (JS.scaled theirs)) as [E|L|G];
      (split; [intros Ho; pose proof (produces_functional c m _ _ H Ho); first [lia | discriminate] | intros; first [assumption | lia]]).
Qed.

Lemma SFcompare_zero_r (x : JS.number) :
  JS.is_double x -> JS.is_finite x = true ->
  SFcompare x JS.pos_zero = Some (JS.scaled x ?= 0).
Proof.
  intros D F. exact (JSFacts.SFcompare_scaled x JS.pos_zero D eq_refl F eq_refl).
Qed.

Lemma SFcompare_zero_l (x : JS.number) :
  JS.is_double x -> JS.is_finite x = true ->
  SFcompare JS.pos_zero x = Some (0 ?= JS.scaled x).
Proof.
  intros D F. exact (JSFacts.SFcompare_scaled JS.pos_zero x eq_refl D eq_refl F).
Qed.

Lemma SFcompare_nan_r (x : JS.number) : SFcompare x JS.NaN = None.
Proof. destruct x; reflexivity. Qed.

Lemma not_produces (c : bool) (m : Match) (o o' : outcome) :
  produces c m o -> o <> o' -> ~ produces c m o'.
Proof. intros H Hne H'. apply Hne. exact (produces_functional c m o o' H H'). Qed.

(** C9, amended: on a completed match with exactly one score absent the
    result block is computed without failure and never shows TIE.  An absent
    score that is [undefined] coerces to NaN and the block shows LOSS for
    every viewer; an absent score that is [null] coerces to 0, and the block
    shows WIN exactly when the viewer's coerced score is strictly greater
    than the other one (the viewer holds the present score and it is
    positive, or the other side holds it and it is negative), and LOSS
    otherwise. *)
Theorem absent_score_outcome (c holder : bool) (m : Match) (x : JS.number) (v : JS.value) :
  is_absent v = true ->
  JS.is_double x -> JS.is_finite x = true ->
  (creatorScore m, invitedScore m) = (if holder then (JS.Num x, v) else (v, JS.Num x)) ->
  (exists o, produces c m o) /\
  ~ produces c m TIE /\
  (v = JS.Undefined -> produces c m LOSS) /\
  (v = JS.Null ->
   (produces c m WIN <->
    if Bool.eqb c holder then 0 < JS.scaled x else JS.scaled x < 0) /\
   (produces c m LOSS <->
    if Bool.eqb c holder then JS.scaled x <= 0 else 0 <= JS.scaled x)).
Proof.
  intros Hv D F Hm.
  assert (Hc : creatorScore m = if holder then JS.Num x else v)
    by (destruct holder; congruence).
  assert (Hi : invitedScore m = if holder then v else JS.Num x)
    by (destruct holder; congruence).
  assert (Hcases :
    produces c m
      match v with
      | JS.Undefined => LOSS
      | _ => if Bool.eqb c holder
             then (if 0 <? JS.scaled x then WIN else LOSS)
             else (if JS.scaled x <? 0 then WIN else LOSS)
      end).
  { unfold produces, result_className, result_message. rewrite Hc, Hi.
    unfold JS.greater_than, SFltb.
    destruct v as [| |y]; [| |discriminate Hv];
      destruct holder, c; cbn [JS.strict_equals JS.Number Bool.eqb];
      rewrite ?SFcompare_nan_r, ?SFcompare_zero_r, ?SFcompare_zero_l by assumption;
      try (destruct x; reflexivity).
    - rewrite Z.ltb_compare. destruct (0 ?= JS.scaled x); reflexivity.
    - rewrite Z.ltb_compare. destruct (JS.scaled x ?= 0); reflexivity.
    - rewrite Z.ltb_compare. destruct (JS.scaled x ?= 0); reflexivity.
    - rewrite Z.ltb_compare. destruct (0 ?= JS.scaled x); reflexivity. }
  split; [eexists; exact Hcases|]. split; [|split].
  - eapply not_produces; [exact Hcases|].
    destruct v; [discriminate| |discriminate Hv];
      destruct (Bool.eqb c holder), (0 <? JS.scaled x), (JS.scaled x <? 0); discriminate.
  - intros ->. exact Hcases.
  - intros ->. revert Hcases.
    destruct (Bool.eqb c holder);
      [destruct (Z.ltb_spec 0 (JS.scaled x)) as [L|G]
      |destruct (Z.ltb_spec (JS.scaled x) 0) as [L|G]];
      intros Hcases; split; split;
      first [ intros ?; first [assumption | lia | exfalso; lia]
            | intros Ho; pose proof (produces_functional c m _ _ Hcases Ho) as E;
              discriminate E ].
Qed.

(** C9 as stated fails: the creator holds 8.0, the other score is [null],
    and the creator is shown WIN. *)
Lemma absent_score_not_always_loss :
  ~ (forall (c : bool) (m : Match), one_absent m -> produces c m LOSS).
Proof.
  intros H.
  specialize (H true (Sample.a_match "completed" (JS.Num Sample.d8_0) JS.Null) eq_refl).
  discriminate H.
Qed.

End Outcome.

Lemma outcome_classification_witness :
  let m := Sample.a_match "completed" (JS.Num Sample.d8_0) (JS.Num Sample.d6_5) in
  (exists! o, produces true m o) /\
  (produces true m TIE <-> JS.scaled Sample.d8_0 = JS.scaled Sample.d6_5) /\
  (produces true m WIN <-> (JS.scaled Sample.d8_0 > JS.scaled Sample.d6_5)%Z) /\
  (produces true m LOSS <-> (JS.scaled Sample.d8_0 < JS.scaled Sample.d6_5)%Z).
Proof.
  exact (outcome_classification true
           (Sample.a_match "completed" (JS.Num Sample.d8_0) (JS.Num Sample.d6_5))
           Sample.d8_0 Sample.d6_5
           eq_refl eq_refl eq_refl eq_refl eq_refl eq_refl).
Defined.

Lemma absent_score_outcome_witness :
  produces true (Sample.a_match "completed" (JS.Num Sample.d8_0) JS.Undefined) LOSS.
Proof.
  exact (proj1 (proj2 (proj2
           (absent_score_outcome true true
              (Sample.a_match "completed" (JS.Num Sample.d8_0) JS.Undefined)
              Sample.d8_0 JS.Undefined eq_refl eq_refl eq_refl eq_refl))) eq_refl).
Defined.

(** * The two scores of the result block *)

Section Scores.

Variable toStringLarge : JS.number -> string.

Local Open Scope Z_scope.

Lemma numerically_zero (x : JS.number) :
  SFeqb x JS.pos_zero = true -> exists s, x = S754_zero s.
Proof.
  destruct x as [s|s| |s m e]; cbn; try discriminate.
  - intros _. now exists s.
  - destruct s; discriminate.
  - destruct s; discriminate.
Qed.

Lemma toFixed1_zero (s : bool) :
  JS.toFixed1 toStringLarge (S754_zero s) = "0.0"%string.
Proof. vm_compute. reflexivity. Qed.

(** C10: a score that is present and numerically equal to 0 (either zero of
    the doubles) is shown as the placeholder "-", exactly as an absent score
    is, and not as the "0.0" that rounding it would give; this holds in
    both columns of the result block, for either viewer. *)
Theorem zero_score_shown_as_absent (x : JS.number) :
  SFeqb x JS.pos_zero = true ->
  score_text toStringLarge (JS.Num x) = "-"%string /\
  score_text toStringLarge (JS.Num x) = score_text toStringLarge JS.Null /\
  score_text toStringLarge (JS.Num x) = score_text toStringLarge JS.Undefined /\
  score_text toStringLarge (JS.Num x) <> JS.toFixed1 toStringLarge x /\
  JS.toFixed1 toStringLarge x = "0.0"%string /\
  (forall (c : bool) (m : Match),
      (creatorScore m = JS.Num x ->
       (if c then yourScore toStringLarge c m
        else theirScore toStringLarge c m) = "-"%string) /\
      (invitedScore m = JS.Num x ->
       (if c then theirScore toStringLarge c m
        else yourScore toStringLarge c m) = "-"%string)).
Proof.
  intros H. destruct (numerically_zero x H) as [s ->].
  rewrite toFixed1_zero.
  repeat split; try reflexivity; try discriminate.
  - intros Hc. unfold yourScore, theirScore. destruct c; rewrite Hc; reflexivity.
  - intros Hi. unfold yourScore, theirScore. destruct c; rewrite Hi; reflexivity.
Qed.

(** Away from zero the two columns do round: an absent score ([undefined]
    or [null]) is shown as the placeholder "-"; a present score that is a
    finite double, not zero, of magnitude below 10^21, is shown rounded to
    one decimal place: the text is the sign followed by the digits of the
    integer [n] nearest to ten times the magnitude (the larger one on a
    tie), with a point before the last digit. *)
Theorem score_display (v : JS.value) :
  (is_absent v = true -> score_text toStringLarge v = "-"%string) /\
  (forall x : JS.number,
      v = JS.Num x ->
      JS.is_double x -> JS.is_finite x = true ->
      SFeqb x JS.pos_zero = false ->
      Z.abs (JS.scaled x) < 10 ^ 21 * JS.unit_value ->
      exists (n : Z) (a b : string),
        2 * JS.unit_value * n - JS.unit_value <= 20 * Z.abs (JS.scaled x)
          < 2 * JS.unit_value * n + JS.unit_value /\
        score_text toStringLarge v =
          (if JS.scaled x <? 0 then "-" else "") +:+ JS.fixed_digits n /\
        JS.fixed_digits n = a +:+ "." +:+ b /\
        String.length b = 1%nat).
Proof.
  split.
  - destruct v; [reflexivity | reflexivity | discriminate].
  - intros x -> D F NZ Hlt.
    destruct (JSFacts.fixed_digits_shape (JS.nearest_tenths (Z.abs (JS.scaled x))))
      as (a & b & Hab & Hb).
    exists (JS.nearest_tenths (Z.abs (JS.scaled x))), a, b.
    split; [apply JSFacts.nearest_tenths_spec|].
    split; [|split; assumption].
    destruct x as [s|s| |s m e];
      [discriminate NZ | discriminate F | discriminate F |].
    unfold score_text. cbn [JS.ToBoolean JS.Number JS.toFixed1].
    apply Z.leb_gt in Hlt. rewrite Hlt. reflexivity.
Qed.

End Scores.

Lemma zero_score_shown_as_absent_witness :
  score_text Sample.engine (JS.Num JS.neg_zero) = "-"%string.
Proof.
  exact (proj1 (zero_score_shown_as_absent Sample.engine JS.neg_zero eq_refl)).
Defined.

(** Not every present score is shown rounded: the score 0 is not. *)
Lemma present_zero_not_rounded :
  ~ (forall (toStringLarge : JS.number -> string) (x : JS.number),
        JS.is_double x -> JS.is_finite x = true ->
        score_text toStringLarge (JS.Num x) = JS.toFixed1 toStringLarge x).
Proof.
  intros H. specialize (H Sample.engine JS.pos_zero eq_refl eq_refl).
  vm_compute in H. discriminate H.
Qed.

Lemma score_display_witness :
  exists (n : Z) (a b : string),
    (2 * JS.unit_value * n - JS.unit_value <= 20 * Z.abs (JS.scaled Sample.d7_82)
      < 2 * JS.unit_value * n + JS.unit_value)%Z /\
    score_text Sample.engine (JS.Num Sample.d7_82) =
      (if (JS.scaled Sample.d7_82 <? 0)%Z then "-" else "") +:+ JS.fixed_digits n /\
    JS.fixed_digits n = a +:+ "." +:+ b /\
    String.length b = 1%nat.
Proof.
  exact (proj2 (score_display Sample.engine (JS.Num Sample.d7_82))
           Sample.d7_82 eq_refl eq_refl eq_refl eq_refl eq_refl).
Defined.

(** C8, on the code: the creator looks at a completed match with scores 0
    and 6.5.  The score 0 is present: the outcome is computed from it (the
    creator lost), and rounded to one decimal place it reads "0.0", which is
    what the toast of the comparison shows for the same response.  The result
    block shows the placeholder "-" in its place, as if the score were
    absent: the test [score ? ... : '-'] takes the number 0 for a missing
    score. *)
Theorem present_zero_shown_as_placeholder :
  let zero := JS.Num JS.pos_zero in
  let other := JS.Num Sample.d6_5 in
  MatchPage Sample.engine
    (Sample.page Sample.creator (Sample.a_match "completed" zero other))
  = Card [Results "bg-red-500/10" "Your friend won!" "-" "6.5"]
  /\ is_absent zero = false
  /\ JS.toFixed1 Sample.engine (JS.Number zero) = "0.0"
  /\ toasts (fst (complete (compareOptions Sample.engine (Some "1")) tt
                    (Resolved {| ok := true; text := "creatorScore 0, invitedScore 6.5";
                                 json := Some {| data_creatorScore := zero;
                                                 data_invitedScore := other |} |})
                    (Sample.loaded (Sample.a_match "ready" JS.Null JS.Null))))
     = [comparison_complete "0.0" "6.5"].
Proof. vm_compute. repeat split. Qed.

(** * The view selected by status and role *)

Section Views.

Variable toStringLarge : JS.number -> string.

Lemma MatchPage_loaded (p : Page) (m : Match) :
  loaded p m ->
  MatchPage toStringLarge p =
    Card (CardContent toStringLarge (isCreator (user p) m) (selectedFile p)
            (isPending (respondMutation p)) (isPending (compareMutation p)) m).
Proof. unfold loaded, MatchPage. intros ->. reflexivity. Qed.

(** C3: when the snapshot is loaded and its status is pending, ready or
    completed, the card holds exactly one view, and its kind is the one that
    the rendering table gives for the status and the role of the viewer. *)
Theorem one_view (p : Page) (m : Match) :
  loaded p m ->
  In (status m) ["pending"; "ready"; "completed"]%string ->
  exists v : view,
    MatchPage toStringLarge p = Card [v] /\
    view_table (status m) (isCreator (user p) m) = Some (kind_of v).
Proof.
  intros Hl Hs. rewrite (MatchPage_loaded p m Hl).
  unfold CardContent, view_table, isPendingStatus, isReady, isCompleted.
  destruct Hs as [<- | [<- | [<- | []]]]; cbn [String.eqb Ascii.eqb Bool.eqb andb];
    destruct (isCreator (user p) m); cbn [when negb app andb];
    eexists; split; reflexivity.
Qed.

(** The view of a completed match is the result block, with the class, the
    message and the two score texts studied above. *)
Lemma completed_view (p : Page) (m : Match) :
  loaded p m -> status m = "completed"%string ->
  MatchPage toStringLarge p =
    Card [Results (result_className (isCreator (user p) m) m)
                  (result_message (isCreator (user p) m) m)
                  (yourScore toStringLarge (isCreator (user p) m) m)
                  (theirScore toStringLarge (isCreator (user p) m) m)].
Proof.
  intros Hl Hs. rewrite (MatchPage_loaded p m Hl).
  unfold CardContent, isPendingStatus, isReady, isCompleted. rewrite Hs.
  destruct (isCreator (user p) m); reflexivity.
Qed.

End Views.

Lemma one_view_witness :
  exists v : view,
    MatchPage Sample.engine
      (Sample.page Sample.invited (Sample.a_match "ready" JS.Null JS.Null)) = Card [v] /\
    Some ProcessingNotice = Some (kind_of v).
Proof.
  refine (one_view Sample.engine
            (Sample.page Sample.invited (Sample.a_match "ready" JS.Null JS.Null))
            (Sample.a_match "ready" JS.Null JS.Null) _ _).
  - vm_compute. reflexivity.
  - right. left. reflexivity.
Defined.

(** * The snapshot under the callbacks *)

Lemma same_snapshots_refl (w : Env) : same_snapshots w w.
Proof. intros k. reflexivity. Qed.

Lemma same_snapshots_trans (w1 w2 w3 : Env) :
  same_snapshots w1 w2 -> same_snapshots w2 w3 -> same_snapshots w1 w3.
Proof. intros H12 H23 k. now rewrite H23, H12. Qed.

Lemma lookup_invalidated (key k : string) (c : gmap string Query) :
  data <$> (alter invalidate key c !! k) = data <$> (c !! k).
Proof.
  rewrite lookup_alter. case_decide as E; [subst k|reflexivity].
  destruct (c !! key); reflexivity.
Qed.

Lemma invalidateQueries_snapshots (key : string) (w : Env) :
  same_snapshots w (fst (invalidateQueries key w)).
Proof. intros k. apply lookup_invalidated. Qed.

Lemma toast_snapshots (t : Toast) (w : Env) : same_snapshots w (fst (toast t w)).
Proof. intros k. reflexivity. Qed.

Lemma send_snapshots (req : Request) (w : Env) : same_snapshots w (send req w).
Proof. intros k. reflexivity. Qed.

Lemma useQuery_snapshots (w w' : Env) (key : string) (m : Match) :
  same_snapshots w w' ->
  useQuery w key = (Some m, false) -> useQuery w' key = (Some m, false).
Proof.
  intros H. specialize (H key). unfold useQuery.
  destruct (cache w !! key) as [q|], (cache w' !! key) as [q'|]; cbn in H;
    try discriminate; intros E.
  injection H as H. injection E as E _. rewrite H, E. cbn.
  now rewrite andb_false_r.
Qed.

Section Snapshots.

Variable toStringLarge : JS.number -> string.

Lemma respond_onSuccess_world (params : option string) (sel : option File) (w : Env) :
  onSuccess (respondOptions params sel) tt w =
    ({| cache := alter invalidate (queryKey params) (cache w);
        toasts := toasts w ++ [{| title := "Response sent";
                                  description := "Your response has been recorded";
                                  variant := None |}];
        network := network w |}, inr tt).
Proof. reflexivity. Qed.

Lemma advance_respond_snapshots (params : option string) (sel : option File)
    (p : async unit) (w : Env) :
  same_snapshots w (fst (advance (respondOptions params sel) p w)).
Proof.
  destruct p as [[]|e|req k].
  - unfold advance. rewrite respond_onSuccess_world. cbn [fst].
    intros key. apply lookup_invalidated.
  - apply same_snapshots_refl.
  - apply send_snapshots.
Qed.

Lemma compare_onSuccess_cache (params : option string) (d : CompareData) (w : Env) :
  cache (fst (onSuccess (compareOptions toStringLarge params) d w)) =
    alter invalidate (queryKey params) (cache w).
Proof.
  cbn [onSuccess compareOptions]. unfold mbind, M_bind, call_toFixed, throw, mret, M_ret.
  destruct (data_creatorScore d), (data_invitedScore d); reflexivity.
Qed.

Lemma compare_onError_cache (params : option string) (e : Error) (w : Env) :
  cache (fst (fail (compareOptions toStringLarge params) e w)) = cache w.
Proof. reflexivity. Qed.

Lemma advance_compare_snapshots (params : option string)
    (p : async CompareData) (w : Env) :
  same_snapshots w (fst (advance (compareOptions toStringLarge params) p w)).
Proof.
  destruct p as [d|e|req k].
  - unfold advance.
    pose proof (compare_onSuccess_cache params d w) as Hc.
    destruct (onSuccess (compareOptions toStringLarge params) d w) as [w' [e|u]];
      cbn [fst] in *; intros key.
    + rewrite compare_onError_cache, Hc. apply lookup_invalidated.
    + rewrite Hc. apply lookup_invalidated.
  - intros key. reflexivity.
  - apply send_snapshots.
Qed.

Lemma step_snapshots (p : Page) (ev : event) :
  same_snapshots (world p) (world (step toStringLarge p ev)).
Proof.
  destruct ev as [f|[accept|]|r|r]; cbn [step].
  - destruct (file_input_shown toStringLarge p); apply same_snapshots_refl.
  - destruct (enabled toStringLarge p (Respond accept)); [|apply same_snapshots_refl].
    apply advance_respond_snapshots.
  - destruct (enabled toStringLarge p Compare); [|apply same_snapshots_refl].
    apply advance_compare_snapshots.
  - unfold settle. destruct (suspended (respondMutation p)) as [k|];
      [apply advance_respond_snapshots | apply same_snapshots_refl].
  - unfold settle. destruct (suspended (compareMutation p)) as [k|];
      [apply advance_compare_snapshots | apply same_snapshots_refl].
Qed.

Lemma step_user (p : Page) (ev : event) :
  user (step toStringLarge p ev) = user p /\ params (step toStringLarge p ev) = params p.
Proof.
  destruct ev as [f|[accept|]|r|r]; cbn [step];
    repeat match goal with |- context [if ?b then _ else _] => destruct b end;
    split; reflexivity.
Qed.

Lemma step_loaded (p : Page) (ev : event) (m : Match) :
  loaded p m -> loaded (step toStringLarge p ev) m.
Proof.
  unfold loaded. intros H.
  rewrite (proj2 (step_user p ev)).
  exact (useQuery_snapshots _ _ _ m (step_snapshots p ev) H).
Qed.

End Snapshots.

(** * The actions *)

Section Actions.

Variable toStringLarge : JS.number -> string.

Lemma buttons_of_content (c : bool) (sel : option File) (rp cp : bool) (m : Match) :
  flat_map buttons (CardContent toStringLarge c sel rp cp m) =
    when (isPendingStatus m && negb c) (acceptButton sel rp)
    ++ when (isPendingStatus m && negb c) (declineButton rp)
    ++ when (isReady m && c) (compareButton cp).
Proof.
  unfold CardContent.
  destruct (isPendingStatus m), (isReady m), (isCompleted m), c; reflexivity.
Qed.

Lemma offered_Compare (p : Page) (m : Match) :
  loaded p m ->
  offered toStringLarge p Compare = isReady m && isCreator (user p) m.
Proof.
  intros Hl. unfold offered, content.
  rewrite (MatchPage_loaded toStringLarge p m Hl), buttons_of_content.
  destruct (isPendingStatus m), (isReady m), (isCreator (user p) m); reflexivity.
Qed.

Lemma enabled_Compare (p : Page) (m : Match) :
  loaded p m ->
  enabled toStringLarge p Compare =
    isReady m && isCreator (user p) m && negb (isPending (compareMutation p)).
Proof.
  intros Hl. unfold enabled, content.
  rewrite (MatchPage_loaded toStringLarge p m Hl), buttons_of_content.
  destruct (isPendingStatus m), (isReady m), (isCreator (user p) m),
    (isPending (compareMutation p)); reflexivity.
Qed.

Lemma enabled_Respond (p : Page) (m : Match) (accept : bool) :
  loaded p m ->
  enabled toStringLarge p (Respond accept) =
    isPendingStatus m && negb (isCreator (user p) m)
    && negb (isPending (respondMutation p))
    && (negb accept || is_present (selectedFile p)).
Proof.
  intros Hl. unfold enabled, content.
  rewrite (MatchPage_loaded toStringLarge p m Hl), buttons_of_content.
  destruct (isPendingStatus m), (isReady m), (isCreator (user p) m),
    (isPending (respondMutation p)), accept, (selectedFile p); reflexivity.
Qed.

Lemma offered_Respond (p : Page) (m : Match) (accept : bool) :
  loaded p m ->
  offered toStringLarge p (Respond accept) =
    isPendingStatus m && negb (isCreator (user p) m).
Proof.
  intros Hl. unfold offered, content.
  rewrite (MatchPage_loaded toStringLarge p m Hl), buttons_of_content.
  destruct (isPendingStatus m), (isReady m), (isCreator (user p) m), accept; reflexivity.
Qed.

Lemma not_enabled_unloaded (p : Page) (a : action) :
  (forall m, ~ loaded p m) -> enabled toStringLarge p a = false.
Proof.
  intros H. unfold enabled, content, MatchPage.
  destruct (useQuery (world p) (queryKey (params p))) as [[m|] []] eqn:E;
    try reflexivity.
  exfalso. exact (H m E).
Qed.

(** A disabled or absent Compare button: the Compare mutation is pending or
    the click finds no enabled button. *)
Lemma pending_disables_Compare (p : Page) :
  isPending (compareMutation p) = true -> enabled toStringLarge p Compare = false.
Proof.
  intros Hp. unfold enabled, content, MatchPage.
  destruct (useQuery (world p) (queryKey (params p))) as [[m|] []]; try reflexivity.
  rewrite buttons_of_content, Hp.
  destruct (isPendingStatus m), (isReady m), (isCreator (user p) m),
    (isPending (respondMutation p)), (selectedFile p); reflexivity.
Qed.

Lemma step_keeps_pending_compare (p : Page) (ev : event) :
  isPending (compareMutation p) = true -> not_compare_settled ev ->
  compareMutation (step toStringLarge p ev) = compareMutation p.
Proof.
  intros Hp Hev. destruct ev as [f|[accept|]|r|r]; cbn [step].
  - destruct (file_input_shown toStringLarge p); reflexivity.
  - destruct (enabled toStringLarge p (Respond accept)); reflexivity.
  - rewrite (pending_disables_Compare p Hp). reflexivity.
  - reflexivity.
  - destruct Hev.
Qed.

Lemma run_cons (p : Page) (ev : event) (evs : list event) :
  run toStringLarge p (ev :: evs) = run toStringLarge (step toStringLarge p ev) evs.
Proof. reflexivity. Qed.

Lemma run_keeps_pending_compare (evs : list event) (p : Page) (m : Match) :
  loaded p m -> isPending (compareMutation p) = true ->
  Forall not_compare_settled evs ->
  let p' := run toStringLarge p evs in
  loaded p' m /\ user p' = user p /\ params p' = params p
  /\ compareMutation p' = compareMutation p.
Proof.
  revert p. induction evs as [|ev evs IH]; intros p Hl Hp Hevs; cbn zeta.
  - repeat split; assumption || reflexivity.
  - rewrite run_cons. inversion Hevs as [|? ? Hev Hrest]; subst.
    pose proof (step_keeps_pending_compare p ev Hp Hev) as Hc.
    destruct (IH (step toStringLarge p ev)) as (Hl' & Hu' & Hq' & Hc').
    + now apply step_loaded.
    + now rewrite Hc.
    + assumption.
    + split; [exact Hl'|]. split; [|split].
      * rewrite Hu'. apply step_user.
      * rewrite Hq'. apply step_user.
      * now rewrite Hc'.
Qed.

Lemma mutate_compare (params : option string) (w : Env) :
  exists k,
    mutate (compareOptions toStringLarge params) tt w =
      (send {| method := "POST"; url := queryKey params +:+ "/compare";
               body := None; credentials := None |} w,
       {| mutation_state := Pending; error := None; suspended := Some k |})
    /\ forall r w', isPending (snd (advance (compareOptions toStringLarge params) (k r) w')) = false.
Proof.
  eexists. split; [reflexivity|].
  intros r w'. destruct r as [e|res]; [reflexivity|].
  cbn beta iota. destruct (ok res); [|reflexivity].
  destruct (json res) as [d|]; [|reflexivity].
  unfold advance.
  destruct (onSuccess (compareOptions toStringLarge params) d w') as [w'' [e|u]];
    reflexivity.
Qed.

(** C4: on a loaded page the Compare button is rendered if and only if the
    status is ready and the viewer is the creator, and it is enabled if and
    only if, in addition, no Compare request is in flight.  Clicking the
    enabled button puts the request in flight; from then on, whatever else
    happens, the button stays rendered and disabled until the request
    ends, with a response or with a failure, and is enabled again after. *)
Theorem compare_enabled (p : Page) (m : Match) :
  loaded p m ->
  (offered toStringLarge p Compare = true <->
   status m = "ready"%string /\ isCreator (user p) m = true) /\
  (enabled toStringLarge p Compare = true <->
   status m = "ready"%string /\ isCreator (user p) m = true
   /\ isPending (compareMutation p) = false) /\
  (enabled toStringLarge p Compare = true ->
   let p1 := step toStringLarge p (Click Compare) in
   isPending (compareMutation p1) = true /\
   forall evs : list event,
     Forall not_compare_settled evs ->
     let p2 := run toStringLarge p1 evs in
     offered toStringLarge p2 Compare = true /\
     enabled toStringLarge p2 Compare = false /\
     forall r : fetch_result,
       let p3 := step toStringLarge p2 (CompareSettled r) in
       isPending (compareMutation p3) = false /\
       enabled toStringLarge p3 Compare = true).
Proof.
  intros Hl.
  assert (Hready : isReady m = true <-> status m = "ready"%string)
    by apply String.eqb_eq.
  split; [|split].
  - rewrite (offered_Compare p m Hl), andb_true_iff, Hready. reflexivity.
  - rewrite (enabled_Compare p m Hl), !andb_true_iff, negb_true_iff, Hready. tauto.
  - intros He. cbn zeta.
    pose proof He as He'. rewrite (enabled_Compare p m Hl), !andb_true_iff in He'.
    destruct He' as [[Hr Hc] _].
    set (p1 := step toStringLarge p (Click Compare)).
    destruct (mutate_compare (params p) (world p)) as (k & Hk & Hend).
    assert (Hm1 : compareMutation p1 =
                  {| mutation_state := Pending; error := None; suspended := Some k |}).
    { subst p1. cbn [step]. rewrite He. cbn [with_compare compareMutation].
      now rewrite Hk. }
    assert (Hp1 : isPending (compareMutation p1) = true) by now rewrite Hm1.
    assert (Hl1 : loaded p1 m) by now apply step_loaded.
    assert (Hu1 : user p1 = user p) by apply step_user.
    assert (Hq1 : params p1 = params p) by apply step_user.
    split; [exact Hp1|].
    intros evs Hevs.
    destruct (run_keeps_pending_compare evs p1 m Hl1 Hp1 Hevs) as (Hl2 & Hu2 & Hq2 & Hm2).
    set (p2 := run toStringLarge p1 evs) in *.
    split; [|split].
    + rewrite (offered_Compare p2 m Hl2), Hr, Hu2, Hu1, Hc. reflexivity.
    + apply pending_disables_Compare. now rewrite Hm2.
    + intros r.
      set (p3 := step toStringLarge p2 (CompareSettled r)).
      assert (Hp3 : isPending (compareMutation p3) = false).
      { subst p3. cbn [step with_compare compareMutation]. unfold settle.
        rewrite Hm2, Hm1. cbn [suspended]. rewrite Hq2, Hq1. apply Hend. }
      split; [exact Hp3|].
      assert (Hl3 : loaded p3 m) by now apply step_loaded.
      rewrite (enabled_Compare p3 m Hl3), Hp3, Hr.
      replace (user p3) with (user p) by (symmetry; etransitivity; [apply step_user|]; congruence).
      rewrite Hc. reflexivity.
Qed.

End Actions.

Lemma compare_enabled_witness :
  enabled Sample.engine
    (Sample.page Sample.creator (Sample.a_match "ready" JS.Null JS.Null)) Compare = true.
Proof.
  refine (proj2 (proj1 (proj2
            (compare_enabled Sample.engine
               (Sample.page Sample.creator (Sample.a_match "ready" JS.Null JS.Null))
               (Sample.a_match "ready" JS.Null JS.Null) _))) _).
  - vm_compute. reflexivity.
  - repeat split.
Defined.

Section Respond.

Variable toStringLarge : JS.number -> string.

(** C5, amended: Respond with [accept = true] and no photo selected sends
    nothing and fails at once with the error "No file selected".  In the view
    of a pending match for a viewer who is not the creator both buttons are
    rendered; Accept is disabled while no photo is selected, and Decline is
    enabled exactly when no Respond request is in flight, whether a photo is
    selected or not. *)
Theorem respond_accept_without_photo (params : option string) (w : Env) :
  mutate (respondOptions params None) true w =
    (w, {| mutation_state := Failed;
           error := Some (new_Error "No file selected");
           suspended := None |})
  /\ forall (p : Page) (m : Match),
       loaded p m -> status m = "pending"%string -> isCreator (user p) m = false ->
       offered toStringLarge p (Respond true) = true /\
       offered toStringLarge p (Respond false) = true /\
       (selectedFile p = None -> enabled toStringLarge p (Respond true) = false) /\
       enabled toStringLarge p (Respond false) = negb (isPending (respondMutation p)).
Proof.
  split; [reflexivity|].
  intros p m Hl Hs Hc.
  assert (Hp : isPendingStatus m = true) by (apply String.eqb_eq; exact Hs).
  rewrite !(offered_Respond toStringLarge p m _ Hl), !(enabled_Respond toStringLarge p m _ Hl).
  rewrite Hp, Hc. cbn [andb negb orb].
  repeat split.
  - intros ->. cbn. now rewrite andb_false_r.
  - now rewrite andb_true_r.
Qed.

(** C6: Respond with [accept = false] passes the local validation and sends
    its request, with the field [accept] set to "false" and the photo when
    one is selected, whatever the selected file is. *)
Theorem respond_decline_issues_request (params : option string)
    (selectedFile : option File) (w : Env) :
  exists k : fetch_result -> async unit,
    mutate (respondOptions params selectedFile) false w =
      (send (respond_request params selectedFile false) w,
       {| mutation_state := Pending; error := None; suspended := Some k |})
    /\ network (send (respond_request params selectedFile false) w) =
         network w ++ [respond_request params selectedFile false].
Proof.
  eexists. split; [|reflexivity].
  reflexivity.
Qed.

Lemma complete_respond (params : option string) (sel : option File)
    (accept : bool) (r : fetch_result) (w : Env) :
  complete (respondOptions params sel) accept r w =
    if accept && negb (is_present sel)
    then fail (respondOptions params sel) (new_Error "No file selected") w
    else
      let w1 := send (respond_request params sel accept) w in
      match r with
      | Rejected e => fail (respondOptions params sel) e w1
      | Resolved res =>
          if ok res
          then advance (respondOptions params sel) (Return tt) w1
          else fail (respondOptions params sel) (new_Error (text res)) w1
      end.
Proof.
  unfold complete, mutate, respond_request.
  cbn [mutationFn respondOptions].
  destruct (accept && negb (is_present sel)); [reflexivity|].
  cbn [advance settle suspended].
  destruct r as [e|res]; [reflexivity|]. destruct (ok res); reflexivity.
Qed.

Lemma complete_compare (params : option string) (r : fetch_result) (w : Env) :
  complete (compareOptions toStringLarge params) tt r w =
    let w1 := send {| method := "POST"; url := queryKey params +:+ "/compare";
                      body := None; credentials := None |} w in
    match r with
    | Rejected e => fail (compareOptions toStringLarge params) e w1
    | Resolved res =>
        if ok res
        then match json res with
             | Some d => advance (compareOptions toStringLarge params) (Return d) w1
             | None => fail (compareOptions toStringLarge params)
                         (SyntaxError "Unexpected token in JSON") w1
             end
        else fail (compareOptions toStringLarge params) (new_Error (text res)) w1
    end.
Proof.
  unfold complete, mutate. cbn [mutationFn compareOptions apiRequest advance settle suspended].
  destruct r as [e|res]; [reflexivity|]. destruct (ok res); [|reflexivity].
  destruct (json res); reflexivity.
Qed.

(** C7: for Respond and for Compare, the cache entry of the snapshot is
    invalidated when the request succeeds, and the cache is left as it was
    when the request fails, by local validation, by a non-success response,
    by a network failure or by a body that is not JSON; in every case the
    snapshots that the cache holds stay the same. *)
Theorem invalidation_only_on_success (params : option string)
    (selectedFile : option File) (accept : bool) (r : fetch_result) (w : Env) :
  let after_respond := fst (complete (respondOptions params selectedFile) accept r w) in
  let after_compare := fst (complete (compareOptions toStringLarge params) tt r w) in
  cache after_respond =
    (if respond_succeeds accept selectedFile r
     then alter invalidate (queryKey params) (cache w) else cache w)
  /\ cache after_compare =
    (if compare_succeeds r
     then alter invalidate (queryKey params) (cache w) else cache w)
  /\ same_snapshots w after_respond
  /\ same_snapshots w after_compare.
Proof.
  cbn zeta. rewrite complete_respond, complete_compare.
  split; [|split; [|split]].
  - unfold respond_succeeds.
    destruct (accept && negb (is_present selectedFile)); [reflexivity|].
    destruct r as [e|res]; [reflexivity|]. destruct (ok res); reflexivity.
  - unfold compare_succeeds. cbn zeta.
    destruct r as [e|res]; [reflexivity|]. destruct (ok res); [|reflexivity].
    destruct (json res) as [d|]; [|reflexivity].
    cbn [is_present andb]. unfold advance.
    pose proof (compare_onSuccess_cache toStringLarge params d
                  (send {| method := "POST"; url := queryKey params +:+ "/compare";
                           body := None; credentials := None |} w)) as Hc.
    destruct (onSuccess (compareOptions toStringLarge params) d _) as [w' [e|u]];
      cbn [fst] in *.
    + rewrite compare_onError_cache. exact Hc.
    + exact Hc.
  - destruct (accept && negb (is_present selectedFile)); [apply same_snapshots_refl|].
    cbn zeta. destruct r as [e|res]; [apply send_snapshots|].
    destruct (ok res); [|apply send_snapshots].
    eapply same_snapshots_trans; [apply send_snapshots|apply advance_respond_snapshots].
  - cbn zeta. destruct r as [e|res]; [apply send_snapshots|].
    destruct (ok res); [|apply send_snapshots].
    destruct (json res) as [d|]; [|apply send_snapshots].
    eapply same_snapshots_trans; [apply send_snapshots|apply advance_compare_snapshots].
Qed.

(** A Respond request that fails shows no toast at all. *)
Lemma respond_failure_silent (params : option string) (sel : option File)
    (accept : bool) (r : fetch_result) (w : Env) :
  respond_succeeds accept sel r = false ->
  toasts (fst (complete (respondOptions params sel) accept r w)) = toasts w.
Proof.
  rewrite complete_respond. unfold respond_succeeds.
  destruct (accept && negb (is_present sel)); [reflexivity|].
  destruct r as [e|res]; [reflexivity|]. destruct (ok res); [discriminate|reflexivity].
Qed.

(** A Compare request that fails shows the failure toast with the message
    of the error. *)
Lemma compare_failure_toast (params : option string) (r : fetch_result) (w : Env) :
  compare_succeeds r = false ->
  exists e : Error,
    error (snd (complete (compareOptions toStringLarge params) tt r w)) = Some e /\
    toasts (fst (complete (compareOptions toStringLarge params) tt r w)) =
      toasts w ++ [{| title := "Comparison failed"; description := message e;
                      variant := Some "destructive" |}] /\
    (forall res, r = Resolved res -> ok res = false -> message e = text res).
Proof.
  rewrite complete_compare. unfold compare_succeeds. cbn zeta.
  destruct r as [e|res].
  - intros _. exists e. repeat split. intros ? [=].
  - destruct (ok res) eqn:Hok.
    + destruct (json res); [discriminate|]. intros _. eexists. repeat split.
      intros ? [= <-]. congruence.
    + intros _. eexists. repeat split. intros ? [= <-] _. reflexivity.
Qed.

End Respond.

(** C2, on the code: the invited viewer declines and the backend answers
    with a non-success response.  The request was sent, the mutation ends in
    error with the raw response body as its message, and no toast is shown:
    [respondMutation] has no [onError], unlike [compareMutation]. *)
Theorem respond_failure_not_notified :
  let start := Sample.page Sample.invited (Sample.a_match "pending" JS.Null JS.Null) in
  let p := run Sample.engine start [Click (Respond false); RespondSettled Sample.rejection] in
  network (world p) = [respond_request (Some "1"%string) None false] /\
  mutation_state (respondMutation p) = Failed /\
  error (respondMutation p) = Some (new_Error "Match is not pending") /\
  toasts (world p) = [].
Proof. vm_compute. repeat split. Qed.

(** C5 as stated fails: after a click on Decline, while its request is in
    flight and still no photo is selected, Decline is disabled. *)
Lemma decline_disabled_in_flight :
  ~ (forall (toStringLarge : JS.number -> string) (p : Page) (m : Match),
        loaded p m -> status m = "pending"%string -> isCreator (user p) m = false ->
        selectedFile p = None ->
        enabled toStringLarge p (Respond true) = false /\
        enabled toStringLarge p (Respond false) = true).
Proof.
  intros H.
  specialize (H Sample.engine
                (step Sample.engine
                   (Sample.page Sample.invited (Sample.a_match "pending" JS.Null JS.Null))
                   (Click (Respond false)))
                (Sample.a_match "pending" JS.Null JS.Null)).
  destruct H as [_ H]; [vm_compute; reflexivity | reflexivity | reflexivity | reflexivity |].
  vm_compute in H. discriminate H.
Qed.

Lemma respond_accept_without_photo_witness :
  enabled Sample.engine
    (Sample.page Sample.invited (Sample.a_match "pending" JS.Null JS.Null))
    (Respond true) = false.
Proof.
  refine (proj1 (proj2 (proj2
            (proj2 (respond_accept_without_photo Sample.engine None (Sample.loaded (Sample.a_match "pending" JS.Null JS.Null)))
               (Sample.page Sample.invited (Sample.a_match "pending" JS.Null JS.Null))
               (Sample.a_match "pending" JS.Null JS.Null) _ _ _))) _).
  - vm_compute. reflexivity.
  - reflexivity.
  - reflexivity.
  - reflexivity.
Defined.

(** * The examples of the specification *)

Example sample_doubles_valid :
  Forall JS.is_double [Sample.d8_0; Sample.d6_5; Sample.d7_82; Sample.d7_84].
Proof. repeat constructor. Qed.

Example d8_0_value : JS.scaled Sample.d8_0 = (8 * JS.unit_value)%Z.
Proof. vm_compute. reflexivity. Qed.

Example d6_5_value : (2 * JS.scaled Sample.d6_5 = 13 * JS.unit_value)%Z.
Proof. vm_compute. reflexivity. Qed.

(** [d7_82] is within half a unit in the last place of 7.82. *)
Example d7_82_nearest :
  (2 * Z.abs (100 * JS.scaled Sample.d7_82 - 782 * JS.unit_value)
   <= 100 * 2 ^ (-50 + JS.scale))%Z.
Proof. vm_compute. discriminate. Qed.

Example d7_84_nearest :
  (2 * Z.abs (100 * JS.scaled Sample.d7_84 - 784 * JS.unit_value)
   <= 100 * 2 ^ (-50 + JS.scale))%Z.
Proof. vm_compute. discriminate. Qed.

Example tie_on_equal_scores :
  MatchPage Sample.engine
    (Sample.page Sample.creator
       (Sample.a_match "completed" (JS.Num Sample.d7_82) (JS.Num Sample.d7_82)))
  = Card [Results "bg-blue-500/10" "It's a tie!" "7.8" "7.8"].
Proof. vm_compute. reflexivity. Qed.

Example creator_wins :
  MatchPage Sample.engine
    (Sample.page Sample.creator
       (Sample.a_match "completed" (JS.Num Sample.d8_0) (JS.Num Sample.d6_5)))
  = Card [Results "bg-green-500/10" "You won!" "8.0" "6.5"].
Proof. vm_compute. reflexivity. Qed.

Example invited_loses :
  MatchPage Sample.engine
    (Sample.page Sample.invited
       (Sample.a_match "completed" (JS.Num Sample.d8_0) (JS.Num Sample.d6_5)))
  = Card [Results "bg-red-500/10" "Your friend won!" "6.5" "8.0"].
Proof. vm_compute. reflexivity. Qed.

(** The tie is decided on the raw scores: 7.82 and 7.84 are both shown as
    "7.8" and are not a tie. *)
Example no_tie_on_equal_roundings :
  MatchPage Sample.engine
    (Sample.page Sample.creator
       (Sample.a_match "completed" (JS.Num Sample.d7_82) (JS.Num Sample.d7_84)))
  = Card [Results "bg-red-500/10" "Your friend won!" "7.8" "7.8"].
Proof. vm_compute. reflexivity. Qed.

Example pending_invited_without_photo :
  MatchPage Sample.engine
    (Sample.page Sample.invited (Sample.a_match "pending" JS.Null JS.Null))
  = Card [NewChallenge None
            {| onClick := Respond true; disabled := true;
               label := "Accept Challenge" |}
            {| onClick := Respond false; disabled := false; label := "Decline" |}].
Proof. vm_compute. reflexivity. Qed.

Example absent_invited_score :
  MatchPage Sample.engine
    (Sample.page Sample.creator
       (Sample.a_match "completed" (JS.Num Sample.d8_0) JS.Undefined))
  = Card [Results "bg-red-500/10" "Your friend won!" "8.0" "-"].
Proof. vm_compute. reflexivity. Qed.

Example compare_reports_scores :
  let start := Sample.page Sample.creator (Sample.a_match "ready" JS.Null JS.Null) in
  let p := run Sample.engine start [Click Compare; CompareSettled Sample.scores] in
  toasts (world p) =
    [{| title := "Comparison complete";
        description := "Your score: 8.0, Their score: 6.5";
        variant := None |}]
  /\ (isInvalidated <$> cache (world p) !! queryKey (Some "1")) = Some true.
Proof. vm_compute. split; reflexivity. Qed.

Example compare_reports_rejection :
  let start := Sample.page Sample.creator (Sample.a_match "ready" JS.Null JS.Null) in
  let p := run Sample.engine start [Click Compare; CompareSettled Sample.rejection] in
  toasts (world p) =
    [{| title := "Comparison failed";
        description := "Match is not pending";
        variant := Some "destructive" |}]
  /\ (isInvalidated <$> cache (world p) !! queryKey (Some "1")) = Some false.
Proof. vm_compute. split; reflexivity. Qed.

Example respond_accepts_with_photo :
  let start := Sample.page Sample.invited (Sample.a_match "pending" JS.Null JS.Null) in
  let p := run Sample.engine start
             [ChooseFile (Some Sample.photo); Click (Respond true);
              RespondSettled Sample.acknowledged] in
  network (world p) = [respond_request (Some "1") (Some Sample.photo) true]
  /\ toasts (world p) =
       [{| title := "Response sent";
           description := "Your response has been recorded";
           variant := None |}]
  /\ (isInvalidated <$> cache (world p) !! queryKey (Some "1")) = Some true.
Proof. vm_compute. repeat split. Qed.

Example respond_offline :
  let start := Sample.page Sample.invited (Sample.a_match "pending" JS.Null JS.Null) in
  let p := run Sample.engine start
             [Click (Respond false); RespondSettled Sample.offline] in
  error (respondMutation p) = Some (TypeError "Failed to fetch")
  /\ toasts (world p) = []
  /\ (isInvalidated <$> cache (world p) !! queryKey (Some "1")) = Some false.
Proof. vm_compute. repeat split. Qed.

(** * Further properties of the match page *)

Section MatchPageFacts.

Variable toStringLarge : JS.number -> string.

Lemma content_unloaded (p : Page) :
  (forall m, ~ loaded p m) -> content toStringLarge p = [].
Proof.
  intros H. unfold content, MatchPage.
  destruct (useQuery (world p) (queryKey (params p))) as [[m|] []] eqn:E;
    try reflexivity.
  exfalso. exact (H m E).
Qed.

Lemma loaded_dec (p : Page) : (exists m, loaded p m) \/ (forall m, ~ loaded p m).
Proof.
  unfold loaded.
  destruct (useQuery (world p) (queryKey (params p))) as [[m|] []];
    first [ left; eexists; reflexivity | right; intros m' H; discriminate H ].
Qed.

(** X1: while the query is loading, or has ended without data, the page
    shows the progress card or nothing, offers no action, and a click or a
    file selection leaves the page as it is. *)
Theorem nothing_to_do_without_snapshot (p : Page) :
  (forall m, ~ loaded p m) ->
  (MatchPage toStringLarge p = ProgressCard \/ MatchPage toStringLarge p = Nothing) /\
  (forall a, offered toStringLarge p a = false) /\
  (forall f, step toStringLarge p (ChooseFile f) = p) /\
  (forall a, step toStringLarge p (Click a) = p).
Proof.
  intros H. pose proof (content_unloaded p H) as Hc.
  split; [|split; [|split]].
  - unfold MatchPage.
    destruct (useQuery (world p) (queryKey (params p))) as [[m|] []] eqn:E; auto.
    exfalso. exact (H m E).
  - intros a. unfold offered. now rewrite Hc.
  - intros f. cbn [step]. unfold file_input_shown. now rewrite Hc.
  - intros a. pose proof (not_enabled_unloaded toStringLarge p a H) as He.
    destruct a; cbn [step]; now rewrite He.
Qed.

(** X2: with a loaded snapshot the card is empty if and only if the status
    is none of pending, ready and completed. *)
Theorem empty_card_on_other_status (p : Page) (m : Match) :
  loaded p m ->
  (MatchPage toStringLarge p = Card [] <->
   ~ In (status m) ["pending"; "ready"; "completed"]).
Proof.
  intros Hl. rewrite (MatchPage_loaded toStringLarge p m Hl).
  unfold CardContent, isPendingStatus, isReady, isCompleted.
  destruct (String.eqb_spec (status m) "pending") as [E1|N1];
  destruct (String.eqb_spec (status m) "ready") as [E2|N2];
  destruct (String.eqb_spec (status m) "completed") as [E3|N3];
  destruct (isCreator (user p) m); cbn [when andb negb app];
  split; intros H;
  try discriminate H;
  try (exfalso; apply H; cbn; auto; fail);
  try reflexivity.
  all: intros [E|[E|[E|[]]]]; congruence.
Qed.

(** X3: Accept is enabled if and only if the status is pending, the viewer is
    not the creator, a photo is selected and no Respond request is in
    flight. *)
Theorem accept_enabled (p : Page) (m : Match) :
  loaded p m ->
  (enabled toStringLarge p (Respond true) = true <->
   status m = "pending" /\ isCreator (user p) m = false
   /\ (exists f, selectedFile p = Some f)
   /\ isPending (respondMutation p) = false).
Proof.
  intros Hl. rewrite (enabled_Respond toStringLarge p m true Hl).
  unfold isPendingStatus. rewrite !andb_true_iff, !negb_true_iff.
  rewrite String.eqb_eq. cbn [negb orb].
  destruct (selectedFile p) as [f|]; cbn [is_present]; split.
  - intros [[[H1 H2] H3] _]. repeat split; eauto.
  - intros (H1 & H2 & _ & H3). repeat split; assumption.
  - intros [_ H]. discriminate H.
  - intros (_ & _ & [f H] & _). discriminate H.
Qed.

(** Accept is enabled only with a photo selected. *)
Lemma enabled_accept_has_photo (p : Page) :
  enabled toStringLarge p (Respond true) = true ->
  exists f : File, selectedFile p = Some f.
Proof.
  intros He. destruct (loaded_dec p) as [[m Hl]|Hn].
  - rewrite (enabled_Respond toStringLarge p m true Hl) in He.
    destruct (selectedFile p) as [f|]; [now exists f|].
    cbn in He. rewrite andb_false_r in He. discriminate He.
  - rewrite (not_enabled_unloaded toStringLarge p _ Hn) in He. discriminate He.
Qed.

(** X4: a click on the enabled Accept sends one request, which carries the
    selected photo and then the field [accept] set to "true"; the Respond
    mutation is then pending and no toast is shown yet. *)
Theorem accept_sends_photo (p : Page) :
  enabled toStringLarge p (Respond true) = true ->
  exists f : File,
    selectedFile p = Some f /\
    network (world (step toStringLarge p (Click (Respond true)))) =
      network (world p) ++ [respond_request (params p) (Some f) true] /\
    body (respond_request (params p) (Some f) true) =
      Some [("photo", FormFile f); ("accept", FormText "true")] /\
    isPending (respondMutation (step toStringLarge p (Click (Respond true)))) = true /\
    toasts (world (step toStringLarge p (Click (Respond true)))) = toasts (world p).
Proof.
  intros He.
  destruct (enabled_accept_has_photo p He) as [f Hf].
  exists f. split; [exact Hf|].
  cbn [step]. rewrite He, Hf. repeat split.
Qed.

(** X5: for the creator, and on every status but pending, the Respond
    buttons are not rendered and a click on them changes nothing; for
    everyone but the creator, and on every status but ready, the same holds
    of Compare. *)
Theorem actions_gated (p : Page) (m : Match) :
  loaded p m ->
  (isCreator (user p) m = true \/ status m <> "pending" ->
   forall accept, offered toStringLarge p (Respond accept) = false
                  /\ step toStringLarge p (Click (Respond accept)) = p) /\
  (isCreator (user p) m = false \/ status m <> "ready" ->
   offered toStringLarge p Compare = false /\ step toStringLarge p (Click Compare) = p).
Proof.
  intros Hl. split.
  - intros H accept.
    assert (Hg : isPendingStatus m && negb (isCreator (user p) m) = false).
    { destruct H as [-> | Hs]; [apply andb_false_r|].
      unfold isPendingStatus. apply String.eqb_neq in Hs. now rewrite Hs. }
    split.
    + now rewrite (offered_Respond toStringLarge p m accept Hl).
    + cbn [step]. rewrite (enabled_Respond toStringLarge p m accept Hl), Hg. reflexivity.
  - intros H.
    assert (Hg : isReady m && isCreator (user p) m = false).
    { destruct H as [-> | Hs]; [apply andb_false_r|].
      unfold isReady. apply String.eqb_neq in Hs. now rewrite Hs. }
    split.
    + now rewrite (offered_Compare toStringLarge p m Hl).
    + cbn [step]. rewrite (enabled_Compare toStringLarge p m Hl), Hg. reflexivity.
Qed.

Lemma isCreator_false (u : option User) (m : Match) :
  (forall v, u = Some v -> user_id v <> creatorId m) -> isCreator u m = false.
Proof.
  intros H. destruct u as [v|]; [|reflexivity].
  cbn. apply Z.eqb_neq. now apply H.
Qed.

(** X6: a viewer who is not the creator, be it a signed-out visitor or a
    user the match does not name, gets the views of the invited
    participant: the page never looks at [invitedId].  On a pending match
    such a viewer is offered Accept and Decline, and never Compare. *)
Theorem anyone_but_creator_is_invited (p : Page) (m : Match) :
  loaded p m ->
  (forall v, user p = Some v -> user_id v <> creatorId m) ->
  match view_table (status m) false with
  | Some k => map kind_of (content toStringLarge p) = [k]
  | None => content toStringLarge p = []
  end
  /\ offered toStringLarge p Compare = false
  /\ (status m = "pending" ->
      offered toStringLarge p (Respond true) = true /\ offered toStringLarge p (Respond false) = true).
Proof.
  intros Hl Hu. pose proof (isCreator_false (user p) m Hu) as Hc.
  split; [|split].
  - unfold content. rewrite (MatchPage_loaded toStringLarge p m Hl), Hc.
    unfold CardContent, view_table, isPendingStatus, isReady, isCompleted.
    destruct (String.eqb_spec (status m) "pending") as [E1|N1];
      [rewrite E1; reflexivity|].
    destruct (String.eqb_spec (status m) "ready") as [E2|N2];
      [rewrite E2; reflexivity|].
    destruct (String.eqb_spec (status m) "completed") as [E3|N3]; reflexivity.
  - rewrite (offered_Compare toStringLarge p m Hl), Hc. apply andb_false_r.
  - intros Hs. rewrite !(offered_Respond toStringLarge p m _ Hl), Hc.
    unfold isPendingStatus. rewrite Hs. split; reflexivity.
Qed.

(** X7: on the view of a pending match for a viewer who is not the creator,
    choosing a file, or clearing the choice, changes the selected file only:
    nothing is sent and no mutation moves.  The card then shows the name of
    the file, and Accept is enabled exactly when a file is chosen and no
    Respond request is in flight. *)
Theorem choose_file (p : Page) (m : Match) (f : option File) :
  loaded p m -> status m = "pending" -> isCreator (user p) m = false ->
  let p' := step toStringLarge p (ChooseFile f) in
  selectedFile p' = f /\
  world p' = world p /\
  respondMutation p' = respondMutation p /\
  compareMutation p' = compareMutation p /\
  content toStringLarge p' =
    [NewChallenge (file_name <$> f)
       (acceptButton f (isPending (respondMutation p)))
       (declineButton (isPending (respondMutation p)))] /\
  enabled toStringLarge p' (Respond true) =
    is_present f && negb (isPending (respondMutation p)).
Proof.
  intros Hl Hs Hc.
  assert (Hshown : file_input_shown toStringLarge p = true).
  { unfold file_input_shown, content. rewrite (MatchPage_loaded toStringLarge p m Hl), Hc.
    unfold CardContent, isPendingStatus. rewrite Hs. reflexivity. }
  cbn zeta. cbn [step]. rewrite Hshown. cbn [selectedFile world respondMutation compareMutation].
  repeat split.
  - unfold content, MatchPage. cbn [world params user selectedFile respondMutation compareMutation].
    unfold loaded in Hl. rewrite Hl, Hc.
    unfold CardContent, isPendingStatus, isReady, isCompleted. rewrite Hs. reflexivity.
  - set (p' := {| user := user p; params := params p; selectedFile := f;
                  world := world p; respondMutation := respondMutation p;
                  compareMutation := compareMutation p |}).
    assert (Hl' : loaded p' m) by exact Hl.
    rewrite (enabled_Respond toStringLarge p' m true Hl'). cbn [user respondMutation selectedFile p'].
    rewrite Hc. unfold isPendingStatus. rewrite Hs. cbn.
    destruct (isPending (respondMutation p)), f; reflexivity.
Qed.

Lemma pending_disables_Respond (p : Page) (accept : bool) :
  isPending (respondMutation p) = true -> enabled toStringLarge p (Respond accept) = false.
Proof.
  intros Hp. destruct (loaded_dec p) as [[m Hl]|Hn].
  - rewrite (enabled_Respond toStringLarge p m accept Hl), Hp. cbn.
    now rewrite andb_false_r.
  - now apply not_enabled_unloaded.
Qed.

Lemma step_keeps_pending_respond (p : Page) (ev : event) :
  isPending (respondMutation p) = true -> not_respond_settled ev ->
  respondMutation (step toStringLarge p ev) = respondMutation p.
Proof.
  intros Hp Hev. destruct ev as [f|[accept|]|r|r]; cbn [step].
  - destruct (file_input_shown toStringLarge p); reflexivity.
  - rewrite (pending_disables_Respond p accept Hp). reflexivity.
  - destruct (enabled toStringLarge p Compare); reflexivity.
  - destruct Hev.
  - reflexivity.
Qed.

Lemma run_keeps_pending_respond (evs : list event) (p : Page) :
  isPending (respondMutation p) = true ->
  Forall not_respond_settled evs ->
  respondMutation (run toStringLarge p evs) = respondMutation p.
Proof.
  revert p. induction evs as [|ev evs IH]; intros p Hp Hevs; [reflexivity|].
  rewrite run_cons. inversion Hevs as [|? ? Hev Hrest]; subst.
  pose proof (step_keeps_pending_respond p ev Hp Hev) as Hs.
  rewrite IH; [exact Hs | now rewrite Hs | assumption].
Qed.

(** X8: a click on an enabled Respond button sends exactly one request and
    makes the mutation pending; from then on, whatever else happens, Accept
    and Decline are disabled and a click on them changes nothing, until the
    request ends, after which the mutation is pending no more. *)
Theorem respond_one_at_a_time (p : Page) (accept : bool) :
  enabled toStringLarge p (Respond accept) = true ->
  let p1 := step toStringLarge p (Click (Respond accept)) in
  isPending (respondMutation p1) = true /\
  network (world p1) =
    network (world p) ++ [respond_request (params p) (selectedFile p) accept] /\
  forall evs : list event,
    Forall not_respond_settled evs ->
    let p2 := run toStringLarge p1 evs in
    (forall a, enabled toStringLarge p2 (Respond a) = false
               /\ step toStringLarge p2 (Click (Respond a)) = p2) /\
    forall r : fetch_result,
      isPending (respondMutation (step toStringLarge p2 (RespondSettled r))) = false.
Proof.
  intros He. cbn zeta.
  assert (Haccept : accept && negb (is_present (selectedFile p)) = false).
  { destruct accept; [|reflexivity].
    destruct (enabled_accept_has_photo p He) as [f Hf]. now rewrite Hf. }
  assert (Hm1 : respondMutation (step toStringLarge p (Click (Respond accept))) =
                {| mutation_state := Pending; error := None;
                   suspended := Some respond_continuation |}).
  { cbn [step]. rewrite He. cbn [with_respond respondMutation].
    unfold mutate. cbn [mutationFn respondOptions]. rewrite Haccept. reflexivity. }
  assert (Hn1 : network (world (step toStringLarge p (Click (Respond accept)))) =
                network (world p) ++ [respond_request (params p) (selectedFile p) accept]).
  { cbn [step]. rewrite He. cbn [with_respond world].
    unfold mutate. cbn [mutationFn respondOptions]. rewrite Haccept. reflexivity. }
  split; [now rewrite Hm1|]. split; [exact Hn1|].
  intros evs Hevs.
  pose proof (run_keeps_pending_respond evs _ ltac:(now rewrite Hm1) Hevs) as Hm2.
  rewrite Hm1 in Hm2.
  generalize dependent (run toStringLarge (step toStringLarge p (Click (Respond accept))) evs).
  intros p2 Hm2. split.
  - intros a.
    assert (Hd : enabled toStringLarge p2 (Respond a) = false)
      by (apply pending_disables_Respond; now rewrite Hm2).
    split; [exact Hd|]. cbn [step]. now rewrite Hd.
  - intros r. cbn [step with_respond respondMutation]. unfold settle.
    rewrite Hm2. cbn [suspended].
    destruct r as [e|res]; [reflexivity|].
    cbn [respond_continuation]. destruct (ok res); reflexivity.
Qed.

Lemma kinds_of_content (c : bool) (sel sel' : option File) (rp rp' cp cp' : bool)
    (m : Match) :
  map kind_of (CardContent toStringLarge c sel rp cp m) =
  map kind_of (CardContent toStringLarge c sel' rp' cp' m).
Proof.
  unfold CardContent.
  destruct (isPendingStatus m), (isReady m), (isCompleted m), c; reflexivity.
Qed.

Lemma run_loaded (evs : list event) (p : Page) (m : Match) :
  loaded p m ->
  loaded (run toStringLarge p evs) m /\ user (run toStringLarge p evs) = user p
  /\ params (run toStringLarge p evs) = params p
  /\ same_snapshots (world p) (world (run toStringLarge p evs)).
Proof.
  revert p. induction evs as [|ev evs IH]; intros p Hl.
  - split; [exact Hl|]. split; [reflexivity|]. split; [reflexivity|].
    apply same_snapshots_refl.
  - rewrite run_cons.
    destruct (IH (step toStringLarge p ev) (step_loaded toStringLarge p ev m Hl)) as (H1 & H2 & H3 & H4).
    destruct (step_user toStringLarge p ev) as [Hu Hq].
    split; [exact H1|]. split; [congruence|]. split; [congruence|].
    eapply same_snapshots_trans; [apply step_snapshots | exact H4].
Qed.

(** X9: no sequence of events changes the snapshot that the page shows:
    the page stays loaded with the same Match, the cache holds the same
    data, and the kind of the view stays the same. *)
Theorem view_stable (p : Page) (m : Match) (evs : list event) :
  loaded p m ->
  loaded (run toStringLarge p evs) m /\
  same_snapshots (world p) (world (run toStringLarge p evs)) /\
  map kind_of (content toStringLarge (run toStringLarge p evs)) = map kind_of (content toStringLarge p).
Proof.
  intros Hl. destruct (run_loaded evs p m Hl) as (Hl' & Hu & Hq & Hs).
  split; [exact Hl'|]. split; [exact Hs|].
  unfold content.
  rewrite (MatchPage_loaded toStringLarge p m Hl), (MatchPage_loaded toStringLarge _ m Hl'), Hu.
  apply kinds_of_content.
Qed.

(** X10: the mutations invalidate the very query that the page reads: when
    Respond or Compare succeeds, the entry under the key of the page keeps
    its data and is marked invalidated and fetching, and every other entry
    of the cache is untouched. *)
Theorem success_marks_observed_query (params : option string)
    (selectedFile : option File) (accept : bool) (r : fetch_result)
    (w : Env) (q : Query) :
  cache w !! queryKey params = Some q ->
  (respond_succeeds accept selectedFile r = true ->
   let w' := fst (complete (respondOptions params selectedFile) accept r w) in
   cache w' !! queryKey params =
     Some {| data := data q; isFetching := true; isInvalidated := true |}
   /\ forall k, k <> queryKey params -> cache w' !! k = cache w !! k) /\
  (compare_succeeds r = true ->
   let w' := fst (complete (compareOptions toStringLarge params) tt r w) in
   cache w' !! queryKey params =
     Some {| data := data q; isFetching := true; isInvalidated := true |}
   /\ forall k, k <> queryKey params -> cache w' !! k = cache w !! k).
Proof.
  intros Hq.
  assert (Hkey : alter invalidate (queryKey params) (cache w) !! queryKey params =
                 Some {| data := data q; isFetching := true; isInvalidated := true |})
    by (rewrite lookup_alter_eq, Hq; reflexivity).
  assert (Hother : forall k, k <> queryKey params ->
                     alter invalidate (queryKey params) (cache w) !! k = cache w !! k)
    by (intros k Hk; apply lookup_alter_ne; congruence).
  split.
  - intros Hs. cbn zeta. rewrite complete_respond.
    unfold respond_succeeds in Hs. apply andb_true_iff in Hs. destruct Hs as [Ha Hr].
    apply negb_true_iff in Ha. rewrite Ha.
    destruct r as [e|res]; [discriminate Hr|]. cbn zeta. rewrite Hr.
    unfold advance. rewrite respond_onSuccess_world. cbn [fst cache send].
    split; assumption.
  - intros Hs. cbn zeta. rewrite complete_compare. cbn zeta.
    unfold compare_succeeds in Hs.
    destruct r as [e|res]; [discriminate Hs|].
    apply andb_true_iff in Hs. destruct Hs as [Hok Hj]. rewrite Hok.
    destruct (json res) as [d|]; [|discriminate Hj].
    unfold advance.
    pose proof (compare_onSuccess_cache toStringLarge params d (send (compare_request params) w)) as Hc.
    unfold compare_request in Hc.
    destruct (onSuccess (compareOptions toStringLarge params) d _) as [w' [e|u]];
      cbn [fst] in *; [rewrite compare_onError_cache|]; rewrite Hc;
      cbn [cache send]; split; assumption.
Qed.

(** X11: what a Respond ends in.  The toast "Response sent" is shown exactly
    when the request succeeds, and no other toast ever; the mutation ends in
    success exactly then.  Its error is "No file selected" when accepting
    without a photo (and then nothing is sent), the error of the network
    when the request could not complete, and the raw body of a non-success
    response. *)
Theorem respond_outcome (params : option string) (selectedFile : option File)
    (accept : bool) (r : fetch_result) (w : Env) :
  let w' := fst (complete (respondOptions params selectedFile) accept r w) in
  let m' := snd (complete (respondOptions params selectedFile) accept r w) in
  toasts w' =
    toasts w ++ (if respond_succeeds accept selectedFile r then [response_sent] else [])
  /\ mutation_state m' =
       (if respond_succeeds accept selectedFile r then Success else Failed)
  /\ error m' =
       (if accept && negb (is_present selectedFile)
        then Some (new_Error "No file selected")
        else match r with
             | Rejected e => Some e
             | Resolved res =>
                 if ok res then None else Some (new_Error (text res))
             end)
  /\ network w' =
       network w ++
       (if accept && negb (is_present selectedFile) then []
        else [respond_request params selectedFile accept]).
Proof.
  cbn zeta. rewrite complete_respond. unfold respond_succeeds.
  destruct (accept && negb (is_present selectedFile)); cbn [negb andb].
  - cbn [fail onError respondOptions fst snd toasts mutation_state error network].
    rewrite !app_nil_r. repeat split.
  - cbn zeta. destruct r as [e|res].
    + cbn. rewrite app_nil_r. repeat split.
    + destruct (ok res); cbn; rewrite ?app_nil_r; repeat split.
Qed.

(** X12: what a Compare with a successful JSON response ends in.  The
    request was sent and the query is invalidated in every case.  When both
    scores of the response are Numbers the toast "Comparison complete" shows
    them with one decimal; when one is missing, building that toast throws
    a TypeError after the invalidation, and the viewer gets the toast
    "Comparison failed" with the message of that error. *)
Theorem compare_outcome (params : option string) (res : Response)
    (d : CompareData) (w : Env) :
  ok res = true -> json res = Some d ->
  let w' := fst (complete (compareOptions toStringLarge params) tt (Resolved res) w) in
  let m' := snd (complete (compareOptions toStringLarge params) tt (Resolved res) w) in
  cache w' = alter invalidate (queryKey params) (cache w) /\
  network w' = network w ++ [compare_request params] /\
  match data_creatorScore d, data_invitedScore d with
  | JS.Num a, JS.Num b =>
      mutation_state m' = Success /\ error m' = None /\
      toasts w' =
        toasts w ++ [comparison_complete (JS.toFixed1 toStringLarge a) (JS.toFixed1 toStringLarge b)]
  | _, _ =>
      mutation_state m' = Failed /\
      exists e : Error,
        error m' = Some e /\ name e = "TypeError" /\
        toasts w' = toasts w ++ [comparison_failed e]
  end.
Proof.
  intros Hok Hj. cbn zeta. rewrite complete_compare. cbn zeta. rewrite Hok, Hj.
  unfold advance. cbn [onSuccess compareOptions].
  unfold mbind, M_bind, call_toFixed, throw, mret, M_ret.
  destruct (data_creatorScore d) as [| |a], (data_invitedScore d) as [| |b];
    cbn; repeat split; eexists; repeat split.
Qed.

Lemma respond_callbacks_network (params : option string) (sel : option File)
    (prog : async unit) (w : Env) :
  network (fst (advance (respondOptions params sel) prog w)) =
    match prog with
    | Await req _ => network w ++ [req]
    | _ => network w
    end.
Proof. destruct prog as [[]|e|req k]; reflexivity. Qed.

Lemma compare_callbacks_network (params : option string)
    (prog : async CompareData) (w : Env) :
  network (fst (advance (compareOptions toStringLarge params) prog w)) =
    match prog with
    | Await req _ => network w ++ [req]
    | _ => network w
    end.
Proof.
  destruct prog as [d|e|req k]; try reflexivity.
  unfold advance. cbn [onSuccess compareOptions].
  unfold mbind, M_bind, call_toFixed, throw, mret, M_ret.
  destruct (data_creatorScore d), (data_invitedScore d); reflexivity.
Qed.

Lemma respond_continuation_ends (r : fetch_result) :
  match respond_continuation r with
  | Await _ _ => False
  | _ => True
  end.
Proof. destruct r as [e|res]; cbn; [exact I|]. destruct (ok res); exact I. Qed.

Lemma compare_continuation_ends (r : fetch_result) :
  match compare_continuation r with
  | Await _ _ => False
  | _ => True
  end.
Proof.
  destruct r as [e|res]; cbn; [exact I|].
  destruct (ok res); [|exact I]. destruct (json res); exact I.
Qed.

Lemma advance_ended_suspended {V A} (opts : MutationOptions V A) (prog : async A)
    (w : Env) :
  match prog with Await _ _ => False | _ => True end ->
  suspended (snd (advance opts prog w)) = None.
Proof.
  destruct prog as [a|e|req k]; intros H; [|reflexivity|destruct H].
  unfold advance. destruct (onSuccess opts a w) as [w' [e|u]]; reflexivity.
Qed.

Lemma own_respond (params : option string) (sel : option File) (accept : bool) :
  own_endpoint params (respond_request params sel accept).
Proof. split; [reflexivity | left; reflexivity]. Qed.

Lemma own_compare (params : option string) :
  own_endpoint params (compare_request params).
Proof. split; [reflexivity | right; reflexivity]. Qed.

Ltac nothing_sent :=
  exists []; split; [cbn; rewrite ?app_nil_r; reflexivity | constructor].

Lemma step_in_protocol (p : Page) (ev : event) :
  in_protocol p ->
  in_protocol (step toStringLarge p ev) /\
  exists sent : list Request,
    network (world (step toStringLarge p ev)) = network (world p) ++ sent /\
    Forall (own_endpoint (params p)) sent.
Proof.
  intros [Hr Hc].
  assert (Hsame : forall q : Page,
             q = p -> in_protocol q /\
             exists sent, network (world q) = network (world p) ++ sent /\
                          Forall (own_endpoint (params p)) sent).
  { intros q ->. split; [split; assumption|]. nothing_sent. }
  destruct ev as [f|[accept|]|r|r]; cbn [step].
  - destruct (file_input_shown toStringLarge p); [|now apply Hsame].
    split; [split; assumption|]. nothing_sent.
  - destruct (enabled toStringLarge p (Respond accept)); [|now apply Hsame].
    unfold mutate. cbn [mutationFn respondOptions].
    destruct (accept && negb (is_present (selectedFile p))).
    + split; [split; [left; reflexivity | exact Hc]|].
      nothing_sent.
    + split; [split; [right; reflexivity | exact Hc]|].
      exists [respond_request (params p) (selectedFile p) accept].
      split; [reflexivity|]. constructor; [apply own_respond | constructor].
  - destruct (enabled toStringLarge p Compare); [|now apply Hsame].
    split; [split; [exact Hr | right; reflexivity]|].
    exists [compare_request (params p)].
    split; [reflexivity|]. constructor; [apply own_compare | constructor].
  - unfold settle. destruct Hr as [Hr|Hr]; rewrite Hr;
      [split; [split; [left; exact Hr | exact Hc] | nothing_sent]|].
    split.
    + split; [|exact Hc]. left. cbn [with_respond respondMutation].
      apply advance_ended_suspended, respond_continuation_ends.
    + exists []. split; [|constructor].
      cbn [with_respond world]. rewrite respond_callbacks_network, app_nil_r.
      pose proof (respond_continuation_ends r) as He.
      destruct (respond_continuation r); [| |destruct He]; reflexivity.
  - unfold settle. destruct Hc as [Hc|Hc]; rewrite Hc;
      [split; [split; [exact Hr | left; exact Hc] | nothing_sent]|].
    split.
    + split; [exact Hr|]. left. cbn [with_compare compareMutation].
      apply advance_ended_suspended, compare_continuation_ends.
    + exists []. split; [|constructor].
      cbn [with_compare world]. rewrite compare_callbacks_network, app_nil_r.
      pose proof (compare_continuation_ends r) as He.
      destruct (compare_continuation r); [| |destruct He]; reflexivity.
Qed.

(** X13: whatever the events, every request that the page sends is a POST
    to the respond or the compare endpoint of its own match, and a request
    in flight is always one of its own two mutations. *)
Theorem only_own_endpoints (p : Page) (evs : list event) :
  in_protocol p ->
  in_protocol (run toStringLarge p evs) /\
  exists sent : list Request,
    network (world (run toStringLarge p evs)) = network (world p) ++ sent /\
    Forall (own_endpoint (params p)) sent.
Proof.
  revert p. induction evs as [|ev evs IH]; intros p Hp.
  - split; [exact Hp|]. exists []. split; [now rewrite app_nil_r | constructor].
  - rewrite run_cons.
    destruct (step_in_protocol p ev Hp) as (Hp1 & sent1 & Hn1 & Hf1).
    destruct (IH _ Hp1) as (Hp2 & sent2 & Hn2 & Hf2).
    split; [exact Hp2|]. exists (sent1 ++ sent2). split.
    + now rewrite Hn2, Hn1, app_assoc.
    + apply Forall_app. split; [exact Hf1|].
      now rewrite (proj2 (step_user toStringLarge p ev)) in Hf2.
Qed.

End MatchPageFacts.

(** * Properties of the authentication page *)

Section AuthFacts.

Variable insertUserSchema : Auth.Credentials -> option Auth.Credentials.

Lemma effect_redirected (s : Auth.State) : Auth.redirected (Auth.effect s).
Proof. unfold Auth.redirected, Auth.effect. destruct (Auth.user s) eqn:E; cbn; congruence. Qed.

Lemma step_redirected (s : Auth.State) (ev : Auth.event) :
  Auth.redirected s -> Auth.redirected (Auth.step insertUserSchema s ev).
Proof.
  intros H. destruct ev as [u|[|] b|[|] v|f]; cbn [Auth.step].
  - apply effect_redirected.
  - exact H.
  - exact H.
  - destruct (Auth.form_view s Auth.Login); exact H.
  - destruct (Auth.form_view s Auth.Register); exact H.
  - destruct (Auth.form_view s f) as [view|]; [|exact H].
    destruct (Auth.submit_disabled (Auth.submit view)); exact H.
Qed.

Lemma fold_redirected (evs : list Auth.event) (s : Auth.State) :
  Auth.redirected s -> Auth.redirected (fold_left (Auth.step insertUserSchema) evs s).
Proof.
  revert s. induction evs as [|ev evs IH]; intros s H; [exact H|].
  cbn [fold_left]. apply IH, step_redirected, H.
Qed.

Lemma step_location (s : Auth.State) (ev : Auth.event) :
  Auth.never_signs_in ev -> Auth.location (Auth.step insertUserSchema s ev) = Auth.location s.
Proof.
  intros H. destruct ev as [[u|]|[|] b|[|] v|f]; cbn [Auth.step]; try reflexivity.
  - destruct H.
  - destruct (Auth.form_view s Auth.Login); reflexivity.
  - destruct (Auth.form_view s Auth.Register); reflexivity.
  - destruct (Auth.form_view s f) as [view|]; [|reflexivity].
    destruct (Auth.submit_disabled (Auth.submit view)); reflexivity.
Qed.

Lemma fold_location (evs : list Auth.event) (s : Auth.State) :
  Forall Auth.never_signs_in evs ->
  Auth.location (fold_left (Auth.step insertUserSchema) evs s) = Auth.location s.
Proof.
  revert s. induction evs as [|ev evs IH]; intros s H; [reflexivity|].
  inversion H as [|? ? Hev Hrest]; subst.
  cbn [fold_left]. rewrite IH by assumption. now apply step_location.
Qed.

(** X14: once the authentication page is mounted, and whatever happens
    next, a signed-in visitor is at "/" and the page renders nothing; a
    signed-out visitor gets the card with the login tab open; and the page
    leaves the location alone as long as nobody signs in. *)
Theorem auth_redirect (s : Auth.State) (evs : list Auth.event) :
  let s' := (Auth.run insertUserSchema) s evs in
  (forall u, Auth.user s' = Some u ->
     Auth.location s' = "/" /\ Auth.AuthPage s' = Auth.Null) /\
  (Auth.user s' = None ->
     Auth.AuthPage s' =
       Auth.AuthCard "login" (Auth.LoginForm (Auth.loginPending s'))
                     (Auth.RegisterForm (Auth.registerPending s'))) /\
  (Auth.user s = None -> Forall Auth.never_signs_in evs ->
     Auth.location s' = Auth.location s).
Proof.
  cbn zeta. unfold Auth.run.
  pose proof (fold_redirected evs _ (effect_redirected s)) as H.
  split; [|split].
  - intros u Hu. split.
    + apply H. congruence.
    + unfold Auth.AuthPage. now rewrite Hu.
  - intros Hu. unfold Auth.AuthPage. now rewrite Hu.
  - intros Hu Hevs. rewrite fold_location by assumption.
    unfold Auth.effect. now rewrite Hu.
Qed.

Lemma submit_calls (s : Auth.State) (f : Auth.which) :
  Auth.calls (Auth.step insertUserSchema s (Auth.Submit f)) =
    Auth.calls s ++
    match Auth.user s, Auth.pending s f, insertUserSchema (Auth.values s f) with
    | None, false, Some data => [Auth.mutate_of f data]
    | _, _, _ => []
    end.
Proof.
  cbn [Auth.step]. unfold Auth.form_view, Auth.AuthPage, Auth.handleSubmit.
  destruct (Auth.user s) as [u|]; [now rewrite app_nil_r|].
  destruct f; cbn [Auth.submit Auth.LoginForm Auth.RegisterForm Auth.submit_disabled Auth.pending].
  - destruct (Auth.loginPending s); [now rewrite app_nil_r|].
    cbn [Auth.calls Auth.values]. destruct (insertUserSchema (Auth.loginValues s)); reflexivity.
  - destruct (Auth.registerPending s); [now rewrite app_nil_r|].
    cbn [Auth.calls Auth.values]. destruct (insertUserSchema (Auth.registerValues s)); reflexivity.
Qed.

Lemma step_calls (s : Auth.State) (ev : Auth.event) :
  exists new : list Auth.call,
    Auth.calls (Auth.step insertUserSchema s ev) = Auth.calls s ++ new /\ Forall (Auth.parsed insertUserSchema) new.
Proof.
  destruct ev as [u|[|] b|[|] v|f].
  - exists []. split; [|constructor]. rewrite app_nil_r.
    cbn [Auth.step]. unfold Auth.effect. cbn [Auth.user]. destruct u; reflexivity.
  - exists []. split; [now rewrite app_nil_r | constructor].
  - exists []. split; [now rewrite app_nil_r | constructor].
  - exists []. split; [|constructor]. rewrite app_nil_r. cbn [Auth.step].
    destruct (Auth.form_view s Auth.Login); reflexivity.
  - exists []. split; [|constructor]. rewrite app_nil_r. cbn [Auth.step].
    destruct (Auth.form_view s Auth.Register); reflexivity.
  - eexists. split; [apply submit_calls|].
    destruct (Auth.user s); [constructor|].
    destruct (Auth.pending s f); [constructor|].
    destruct (insertUserSchema (Auth.values s f)) as [data|] eqn:E; [|constructor].
    constructor; [|constructor]. exists (Auth.values s f).
    destruct f; exact E.
Qed.

(** X15: a submission calls the mutation of its own form, with the data
    that the schema made of the values of that form, and calls nothing when
    the visitor is signed in, when that mutation is pending or when the
    schema rejects the values; so, whatever the events, every call that the
    page makes carries data accepted by the schema. *)
Theorem only_parsed_credentials_submitted (s : Auth.State) (evs : list Auth.event) :
  Auth.calls ((Auth.step insertUserSchema) s (Auth.Submit Auth.Login)) =
    Auth.calls s ++
    match Auth.user s, Auth.loginPending s, insertUserSchema (Auth.loginValues s) with
    | None, false, Some data => [Auth.loginMutation_mutate data]
    | _, _, _ => []
    end /\
  Auth.calls ((Auth.step insertUserSchema) s (Auth.Submit Auth.Register)) =
    Auth.calls s ++
    match Auth.user s, Auth.registerPending s,
          insertUserSchema (Auth.registerValues s) with
    | None, false, Some data => [Auth.registerMutation_mutate data]
    | _, _, _ => []
    end /\
  exists new : list Auth.call,
    Auth.calls (Auth.run insertUserSchema s evs) = Auth.calls s ++ new /\ Forall (Auth.parsed insertUserSchema) new.
Proof.
  split; [exact (submit_calls s Auth.Login)|].
  split; [exact (submit_calls s Auth.Register)|].
  unfold Auth.run.
  assert (He : Auth.calls (Auth.effect s) = Auth.calls s)
    by (unfold Auth.effect; destruct (Auth.user s); reflexivity).
  rewrite <- He. generalize (Auth.effect s). clear He s.
  induction evs as [|ev evs IH]; intros s.
  - exists []. split; [now rewrite app_nil_r | constructor].
  - cbn [fold_left].
    destruct (step_calls s ev) as (new1 & H1 & F1).
    destruct (IH (Auth.step insertUserSchema s ev)) as (new2 & H2 & F2).
    exists (new1 ++ new2). split.
    + now rewrite H2, H1, app_assoc.
    + apply Forall_app. split; assumption.
Qed.

End AuthFacts.

(** * Instances of the further properties *)

Lemma nothing_to_do_without_snapshot_witness :
  step Sample.engine Scenario.loading (Click Compare) = Scenario.loading.
Proof.
  refine (proj2 (proj2 (proj2
            (nothing_to_do_without_snapshot Sample.engine Scenario.loading _)))
            Compare).
  intros m H. vm_compute in H. discriminate H.
Defined.

Lemma empty_card_on_other_status_witness :
  MatchPage Sample.engine (Sample.page Sample.creator Scenario.declined_match) = Card []
  <-> ~ In "declined" ["pending"; "ready"; "completed"].
Proof.
  refine (empty_card_on_other_status Sample.engine
            (Sample.page Sample.creator Scenario.declined_match)
            Scenario.declined_match _).
  vm_compute. reflexivity.
Defined.

Lemma accept_enabled_witness :
  enabled Sample.engine Scenario.with_photo (Respond true) = true.
Proof.
  refine (proj2 (accept_enabled Sample.engine Scenario.with_photo
                   Scenario.pending_match _) _).
  - vm_compute. reflexivity.
  - repeat split. exists Sample.photo. reflexivity.
Defined.

Lemma accept_sends_photo_witness :
  exists f : File,
    selectedFile Scenario.with_photo = Some f /\
    network (world (step Sample.engine Scenario.with_photo (Click (Respond true)))) =
      network (world Scenario.with_photo)
      ++ [respond_request (params Scenario.with_photo) (Some f) true] /\
    body (respond_request (params Scenario.with_photo) (Some f) true) =
      Some [("photo", FormFile f); ("accept", FormText "true")] /\
    isPending (respondMutation
                 (step Sample.engine Scenario.with_photo (Click (Respond true)))) = true /\
    toasts (world (step Sample.engine Scenario.with_photo (Click (Respond true)))) =
      toasts (world Scenario.with_photo).
Proof.
  refine (accept_sends_photo Sample.engine Scenario.with_photo _).
  vm_compute. reflexivity.
Defined.

Lemma actions_gated_witness :
  offered Sample.engine (Sample.page Sample.creator Scenario.pending_match)
    (Respond true) = false.
Proof.
  refine (proj1 (proj1 (actions_gated Sample.engine
                          (Sample.page Sample.creator Scenario.pending_match)
                          Scenario.pending_match _) _ true)).
  - vm_compute. reflexivity.
  - left. reflexivity.
Defined.

Lemma anyone_but_creator_is_invited_witness :
  offered Sample.engine (Sample.page Scenario.stranger Scenario.pending_match)
    (Respond true) = true.
Proof.
  refine (proj1 (proj2 (proj2
            (anyone_but_creator_is_invited Sample.engine
               (Sample.page Scenario.stranger Scenario.pending_match)
               Scenario.pending_match _ _)) _)).
  - vm_compute. reflexivity.
  - intros v H. injection H as <-. vm_compute. discriminate.
  - reflexivity.
Defined.

Lemma choose_file_witness :
  enabled Sample.engine
    (step Sample.engine (Sample.page Sample.invited Scenario.pending_match)
       (ChooseFile (Some Sample.photo)))
    (Respond true) = true.
Proof.
  refine (proj2 (proj2 (proj2 (proj2 (proj2
            (choose_file Sample.engine
               (Sample.page Sample.invited Scenario.pending_match)
               Scenario.pending_match (Some Sample.photo) _ _ _)))))).
  - vm_compute. reflexivity.
  - reflexivity.
  - reflexivity.
Defined.

Lemma respond_one_at_a_time_witness :
  isPending (respondMutation
               (step Sample.engine (Sample.page Sample.invited Scenario.pending_match)
                  (Click (Respond false)))) = true.
Proof.
  refine (proj1 (respond_one_at_a_time Sample.engine
                   (Sample.page Sample.invited Scenario.pending_match) false _)).
  vm_compute. reflexivity.
Defined.

Lemma view_stable_witness :
  loaded (run Sample.engine (Sample.page Sample.creator Scenario.ready_match)
            [Click Compare; CompareSettled Sample.scores])
         Scenario.ready_match.
Proof.
  refine (proj1 (view_stable Sample.engine
                   (Sample.page Sample.creator Scenario.ready_match)
                   Scenario.ready_match
                   [Click Compare; CompareSettled Sample.scores] _)).
  vm_compute. reflexivity.
Defined.

Lemma success_marks_observed_query_witness :
  cache (fst (complete (respondOptions (Some "1") None) false Sample.acknowledged
                (Sample.loaded Scenario.pending_match)))
    !! queryKey (Some "1") =
  Some {| data := Some Scenario.pending_match; isFetching := true;
          isInvalidated := true |}.
Proof.
  refine (proj1 (proj1 (success_marks_observed_query Sample.engine (Some "1") None
                          false Sample.acknowledged
                          (Sample.loaded Scenario.pending_match)
                          {| data := Some Scenario.pending_match;
                             isFetching := false; isInvalidated := false |} _) _)).
  - vm_compute. reflexivity.
  - reflexivity.
Defined.

Lemma compare_outcome_witness :
  mutation_state
    (snd (complete (compareOptions Sample.engine (Some "1")) tt
            (Resolved Scenario.half_scores)
            (Sample.loaded Scenario.ready_match))) = Failed.
Proof.
  refine (proj1 (proj2 (proj2
            (compare_outcome Sample.engine (Some "1") Scenario.half_scores
               {| data_creatorScore := JS.Num Sample.d8_0;
                  data_invitedScore := JS.Undefined |}
               (Sample.loaded Scenario.ready_match) _ _)))).
  - reflexivity.
  - reflexivity.
Defined.

Lemma only_own_endpoints_witness :
  exists sent : list Request,
    network (world (run Sample.engine
                      (Sample.page Sample.invited Scenario.pending_match)
                      [Click (Respond false); RespondSettled Sample.rejection;
                       Click (Respond false)])) =
      network (world (Sample.page Sample.invited Scenario.pending_match)) ++ sent /\
    Forall (own_endpoint (Some "1")) sent.
Proof.
  refine (proj2 (only_own_endpoints Sample.engine
                   (Sample.page Sample.invited Scenario.pending_match)
                   [Click (Respond false); RespondSettled Sample.rejection;
                    Click (Respond false)] _)).
  split; left; reflexivity.
Defined.

Lemma auth_redirect_witness :
  Auth.location
    (Auth.run Scenario.schema Scenario.signed_out
       [Auth.Input Auth.Login Scenario.alice; Auth.Submit Auth.Login;
        Auth.SetUser (Some Sample.creator)]) = "/".
Proof.
  refine (proj1 (proj1 (auth_redirect Scenario.schema Scenario.signed_out
                          [Auth.Input Auth.Login Scenario.alice;
                           Auth.Submit Auth.Login;
                           Auth.SetUser (Some Sample.creator)])
                   Sample.creator _)).
  reflexivity.
Defined.

(** * More examples *)

Example loading_shows_progress :
  MatchPage Sample.engine Scenario.loading = ProgressCard.
Proof. vm_compute. reflexivity. Qed.

Example stranger_sees_the_challenge :
  map kind_of (content Sample.engine
                 (Sample.page Scenario.stranger Scenario.pending_match))
  = [UploadAndRespond].
Proof. vm_compute. reflexivity. Qed.

Example missing_score_in_response :
  let start := Sample.page Sample.creator Scenario.ready_match in
  let p := run Sample.engine start
             [Click Compare; CompareSettled (Resolved Scenario.half_scores)] in
  toasts (world p) =
    [comparison_failed
       (TypeError "Cannot read properties of undefined (reading 'toFixed')")]
  /\ (isInvalidated <$> cache (world p) !! queryKey (Some "1")) = Some true.
Proof. vm_compute. split; reflexivity. Qed.

Example empty_form_is_not_submitted :
  Auth.calls (Auth.run Scenario.schema Scenario.signed_out [Auth.Submit Auth.Login])
  = [].
Proof. reflexivity. Qed.

Example login_is_submitted :
  Auth.calls
    (Auth.run Scenario.schema Scenario.signed_out
       [Auth.Input Auth.Login Scenario.alice; Auth.Submit Auth.Login;
        Auth.SetPending Auth.Login true; Auth.Submit Auth.Login;
        Auth.Submit Auth.Register])
  = [Auth.loginMutation_mutate Scenario.alice].
Proof. reflexivity. Qed.
